(** * Figma-Context-MCP: the design-tree descriptor and the asset-export tool

    A shallow embedding of the pure parts of [src/mcp.ts] (and of its sibling
    binding module, which carries the live copy of the same functions):

    - [rgbToHex] and [inferElementPurpose], the two helpers of
      [generateDetailedVisualDescription];
    - [analyzeNode], the recursive walk that builds the description;
    - the [download_figma_images] handler: partition of the requests, merge of
      the outcomes and the aggregate answer;
    - the file-name sanitiser and the complexity label of the document tools.

    Conventions.  A JavaScript string is a [string] (its UTF-8 bytes).  A
    number the source computes with (a colour channel, an opacity: each is
    multiplied and rounded) is an IEEE 754 binary64 value, the primitive
    [float], and its product is the rounded product of the machine.  A
    number the source only tests and prints (a coordinate, a padding, a font
    size) is a rational [Q].  An optional field is an [option]; [||] and
    [if (x)] follow JavaScript truthiness ([undefined], the empty string,
    [0] and [NaN] are falsy). *)

From Stdlib Require Import ZArith QArith Qround List String Ascii Bool Lia.
From Stdlib Require DecimalString HexadecimalString.
From Stdlib Require Import Floats.
From stdpp Require Import base gmap strings.
Import ListNotations.

Local Open Scope string_scope.
Local Open Scope list_scope.

(** String concatenation is written [+:+] throughout, [++] is kept for
    lists; [simpl] may unfold it on a constructor. *)
Local Arguments String.append !_ _ / : simpl nomatch.

(* ================================================================== *)
(** * Part I: the model *)
(* ================================================================== *)

(** ** JavaScript primitives used by the source *)

Module Js.

(** The line feed written [\n] in the source. *)
Definition nl : string := String (ascii_of_nat 10) EmptyString.

(** The double quote character. *)
Definition dquote : string := String (ascii_of_nat 34) EmptyString.

(** [s.length === 0], i.e. the string is falsy. *)
Definition is_empty (s : string) : bool :=
  match s with EmptyString => true | String _ _ => false end.

(** Truthiness of an optional string: [undefined] and [""] are falsy. *)
Definition truthy_str (o : option string) : bool :=
  match o with Some s => negb (is_empty s) | None => false end.

(** Truthiness of an optional number: [undefined] and [0] are falsy. *)
Definition truthy_num (o : option Q) : bool :=
  match o with Some q => negb (Qeq_bool q 0) | None => false end.

(** Truthiness of an optional object: only [undefined] is falsy. *)
Definition truthy_obj {A : Type} (o : option A) : bool :=
  match o with Some _ => true | None => false end.

(** [o || d] on strings. *)
Definition or_str (o : option string) (d : string) : string :=
  match o with
  | Some s => if is_empty s then d else s
  | None => d
  end.

(** [o || d] on numbers. *)
Definition or_num (o : option Q) (d : Q) : Q :=
  match o with
  | Some q => if Qeq_bool q 0 then d else q
  | None => d
  end.

(** [String(n)] for an integer-valued number (plain decimal digits; the
    exponent notation JavaScript switches to from [1e21] on is not
    modelled). *)
Definition int_toString (n : Z) : string :=
  DecimalString.NilZero.string_of_int (Z.to_int n).

(** [n.toString(16)] for an integer-valued number: lowercase hexadecimal
    digits, no padding, a leading [-] for a negative number. *)
Definition int_toString16 (n : Z) : string :=
  if (n <? 0)%Z
  then "-" +:+ HexadecimalString.NilZero.string_of_uint (N.to_hex_uint (Z.to_N (- n)))
  else HexadecimalString.NilZero.string_of_uint (N.to_hex_uint (Z.to_N n)).

(** *** Numbers the source computes with: binary64 *)

(** Truthiness of a number: [0], [-0] and [NaN] are falsy. *)
Definition truthy_double (x : float) : bool :=
  negb (x =? 0)%float && (x =? x)%float.

(** [o || d] on such numbers. *)
Definition or_double (o : option float) (d : float) : float :=
  match o with
  | Some x => if truthy_double x then x else d
  | None => d
  end.

(** What [Math.round] returns: a whole number, [NaN] or an infinity. *)
Inductive Rounded : Type :=
| Whole (z : Z)
| NaN
| Infinite (negative : bool).

(** [Math.round]: the nearest whole number, ties towards [+∞].  A finite
    double is [(-1)^s * m * 2^e]; its value is rounded exactly, as
    [floor(value + 1/2)]. *)
Definition Math_round (x : float) : Rounded :=
  match Prim2SF x with
  | S754_zero _ => Whole 0
  | S754_infinity s => Infinite s
  | S754_nan => NaN
  | S754_finite s m e =>
      let v := if s then Z.neg m else Z.pos m in
      Whole (if (0 <=? e)%Z then v * 2 ^ e
             else (2 * v + 2 ^ (- e)) / 2 ^ (- e + 1))%Z
  end.

(** [String(n)] for a value of [Math.round]. *)
Definition rounded_toString (n : Rounded) : string :=
  match n with
  | Whole z => int_toString z
  | NaN => "NaN"
  | Infinite false => "Infinity"
  | Infinite true => "-Infinity"
  end.

(** [n.toString(16)] for a value of [Math.round]. *)
Definition rounded_toString16 (n : Rounded) : string :=
  match n with
  | Whole z => int_toString16 z
  | NaN => "NaN"
  | Infinite false => "Infinity"
  | Infinite true => "-Infinity"
  end.

(** [" ".repeat(n)] and friends. *)
Fixpoint repeat (s : string) (n : nat) : string :=
  match n with
  | O => EmptyString
  | S k => s +:+ repeat s k
  end.

(** [String.prototype.toLowerCase] on a string of ASCII characters:
    [A-Z] to [a-z], every other character unchanged.  The bytes of a
    character outside ASCII are left as they are, where JavaScript maps
    capital letters of other scripts too (two of them to an ASCII letter:
    U+0130 and U+212A); what is stated of a lowercased title is stated for
    ASCII titles, or holds whatever that mapping is. *)
Definition lower_ascii (c : ascii) : ascii :=
  let n := nat_of_ascii c in
  if (65 <=? n)%nat && (n <=? 90)%nat then ascii_of_nat (n + 32) else c.

Fixpoint toLowerCase (s : string) : string :=
  match s with
  | EmptyString => EmptyString
  | String c s' => String (lower_ascii c) (toLowerCase s')
  end.

(** [s.startsWith(p)]. *)
Fixpoint startsWith (s p : string) : bool :=
  match p, s with
  | EmptyString, _ => true
  | String _ _, EmptyString => false
  | String a p', String c s' => Ascii.eqb a c && startsWith s' p'
  end.

(** [s.includes(p)]. *)
Fixpoint includes (s p : string) : bool :=
  startsWith s p ||
  match s with
  | EmptyString => false
  | String _ s' => includes s' p
  end.

(** The characters of [s] from position [n] on. *)
Fixpoint drop (n : nat) (s : string) : string :=
  match n, s with
  | O, _ => s
  | S _, EmptyString => EmptyString
  | S k, String _ s' => drop k s'
  end.

(** [s.endsWith(p)]. *)
Definition endsWith (s p : string) : bool :=
  (String.length p <=? String.length s)%nat &&
  String.eqb (drop (String.length s - String.length p) s) p.

(** [s.replace(p, r)] with a string pattern: only the first occurrence
    of [p] is replaced ([r] is taken literally). *)
Fixpoint replace (s p r : string) : string :=
  if startsWith s p then r +:+ drop (String.length p) s
  else match s with
       | EmptyString => EmptyString
       | String c s' => String c (replace s' p r)
       end.

(** [xs.join(sep)] on an array of strings. *)
Fixpoint join (sep : string) (xs : list string) : string :=
  match xs with
  | [] => EmptyString
  | [x] => x
  | x :: rest => x +:+ sep +:+ join sep rest
  end.

End Js.

(** ** ColorCodec: [rgbToHex] *)

Module ColorCodec.

(** A colour as the design service sends it: three channels in [0,1]. *)
Record RGB : Type := mkRGB { r : float; g : float; b : float }.

(** The inner [toHex] of [rgbToHex]; the product is the double product. *)
Definition toHex (value : float) : string :=
  let hex := Js.rounded_toString16 (Js.Math_round (value * 255)%float) in
  if (String.length hex =? 1)%nat then "0" +:+ hex else hex.

Definition rgbToHex (rgb : option RGB) : string :=
  match rgb with
  | None => "#000000"
  | Some c => "#" +:+ toHex (r c) +:+ toHex (g c) +:+ toHex (b c)
  end.

(** The hexadecimal digit of a value below sixteen. *)
Definition hex_digit (d : Z) : ascii :=
  if (d <? 10)%Z then ascii_of_nat (48 + Z.to_nat d) else ascii_of_nat (87 + Z.to_nat d).

(** A value below 256 written with exactly two hexadecimal digits. *)
Definition two_hex_digits (n : Z) : string :=
  String (hex_digit (n / 16)) (String (hex_digit (n mod 16)) EmptyString).

(** The body of [toHex] after the rounding. *)
Definition pad_hex (n : Z) : string :=
  let hex := Js.int_toString16 n in
  if (String.length hex =? 1)%nat then "0" +:+ hex else hex.

(** A channel in [0,1], by the comparisons of the machine. *)
Definition in_unit (v : float) : bool := (0 <=? v)%float && (v <=? 1)%float.

End ColorCodec.

(** ** The shift register of the binary64 rounding *)

Module Binary64.

(** [b] is the register [a] shifted right by [n] binary places: the
    mantissa is divided by [2^n], and the round and sticky bits of [b] are
    clear exactly when those of [a] were and no set bit was shifted out. *)
Definition shifted (n : Z) (a b : shr_record) : Prop :=
  (shr_m b = shr_m a / 2 ^ n)%Z
  /\ (shr_r b || shr_s b = false
      <-> (shr_m a mod 2 ^ n = 0)%Z /\ shr_r a || shr_s a = false).

End Binary64.

(** ** PurposeClassifier: the two copies of [inferElementPurpose] *)

Module PurposeClassifier.

(** The copy nested in [generateDetailedVisualDescription].  Only [name]
    and [type] of the node are read. *)
Definition inferElementPurpose (node_name : option string) (node_type : string) : string :=
  let name := Js.toLowerCase (Js.or_str node_name "") in
  let type := node_type in
  if String.eqb type "TEXT" then "Text element"
  else if String.eqb type "RECTANGLE" && Js.includes name "button" then "Button"
  else if String.eqb type "RECTANGLE" && Js.includes name "card" then "Card or container"
  else if String.eqb type "FRAME" && Js.includes name "header" then "Header"
  else if String.eqb type "FRAME" && Js.includes name "footer" then "Footer"
  else if String.eqb type "FRAME" && Js.includes name "nav" then "Navigation"
  else if String.eqb type "INSTANCE" then "Reusable component"
  else if Js.includes name "icon" then "Icon"
  else if Js.includes name "image" then "Image"
  else if Js.includes name "input" then "Input field"
  else Js.toLowerCase type +:+ " element".

(** The copy nested in the [generate_technical_specification] handler. *)
Definition inferElementPurpose_spec (node_name : option string) (node_type : string) : string :=
  let name := Js.toLowerCase (Js.or_str node_name "") in
  let type := node_type in
  if String.eqb type "TEXT" then "Text element"
  else if String.eqb type "RECTANGLE" && Js.includes name "button" then "Button component"
  else if String.eqb type "RECTANGLE" && Js.includes name "card" then "Card or container component"
  else if String.eqb type "FRAME" && Js.includes name "header" then "Header section"
  else if String.eqb type "FRAME" && Js.includes name "footer" then "Footer section"
  else if String.eqb type "FRAME" && Js.includes name "nav" then "Navigation component"
  else if String.eqb type "INSTANCE" then "Reusable component instance"
  else if Js.includes name "icon" then "Icon element"
  else if Js.includes name "image" then "Image asset"
  else if Js.includes name "input" then "Input field component"
  else if String.eqb type "FRAME" then "Layout container"
  else Js.toLowerCase type +:+ " component".

(** The same decision written as data: an ordered list of rules, each a
    predicate on (lowercased name, type) with its label; the first rule
    whose predicate holds gives the label. *)
Definition rule : Type := (string -> string -> bool) * string.

Definition rules : list rule :=
  [ (fun _ type => String.eqb type "TEXT", "Text element");
    (fun name type => String.eqb type "RECTANGLE" && Js.includes name "button", "Button");
    (fun name type => String.eqb type "RECTANGLE" && Js.includes name "card", "Card or container");
    (fun name type => String.eqb type "FRAME" && Js.includes name "header", "Header");
    (fun name type => String.eqb type "FRAME" && Js.includes name "footer", "Footer");
    (fun name type => String.eqb type "FRAME" && Js.includes name "nav", "Navigation");
    (fun _ type => String.eqb type "INSTANCE", "Reusable component");
    (fun name _ => Js.includes name "icon", "Icon");
    (fun name _ => Js.includes name "image", "Image");
    (fun name _ => Js.includes name "input", "Input field") ].

Fixpoint first_match (rs : list rule) (name type : string) : option string :=
  match rs with
  | [] => None
  | (p, label) :: rest => if p name type then Some label else first_match rest name type
  end.

Definition by_rules (node_name : option string) (node_type : string) : string :=
  let name := Js.toLowerCase (Js.or_str node_name "") in
  match first_match rules name node_type with
  | Some label => label
  | None => Js.toLowerCase node_type +:+ " element"
  end.

End PurposeClassifier.

(** ** DescriptorEngine: [generateDetailedVisualDescription] *)

Module DescriptorEngine.

Import ColorCodec.

(** *** The node tree, with the fields [analyzeNode] reads *)

Record Rect : Type := mkRect { x : Q; y : Q; width : Q; height : Q }.

(** [offset] of an effect and [size] of a node. *)
Record Vector : Type := mkVector { vec_x : option Q; vec_y : option Q }.

(** An entry of [fills] or [strokes]. *)
Record Paint : Type := mkPaint {
  paint_type : string;
  paint_color : option RGB;
  paint_opacity : option float
}.

(** An entry of [effects]. *)
Record Effect : Type := mkEffect {
  effect_type : string;
  effect_color : option RGB;
  effect_offset : option Vector;
  effect_radius : option Q
}.

(** The [style] block of a node. *)
Record TypeStyle : Type := mkTypeStyle {
  fontFamily : option string;
  fontSize : option Q;
  fontWeight : option Q;
  textAlignHorizontal : option string;
  textAlignVertical : option string;
  lineHeightPx : option Q
}.

(** A node.  An array field that is absent, not an array or empty is the
    empty list: [analyzeNode] treats the three alike. *)
#[warnings="-register-all"]
Inductive DesignNode : Type := mkNode {
  name : option string;
  type : string;
  absoluteBoundingBox : option Rect;
  size : option Vector;
  layoutAlign : option string;
  layoutGrow : option Q;
  paddingLeft : option Q;
  paddingTop : option Q;
  paddingRight : option Q;
  paddingBottom : option Q;
  itemSpacing : option Q;
  fills : list Paint;
  style : option TypeStyle;
  strokes : list Paint;
  strokeWeight : option Q;
  cornerRadius : option Q;
  effects : list Effect;
  characters : option string;
  children : list DesignNode
}.

(** The [file] argument: the fields the global-context section reads. *)
Record FileContext : Type := mkFile {
  file_name : string;
  lastModified : option string;
  globalVars : option (gmap string string)
}.

(** *** The emitted text, statement by statement

    Every [description += ...] of the source appends one [piece]: the
    text, tagged with the statement that appended it.  The description is
    the concatenation of the texts, see [render]. *)

Inductive tag : Type :=
| TagHeader | TagIdentTitle | TagName | TagType | TagPurpose
| TagGeomTitle | TagPosition | TagDimensions | TagAlignment | TagGrowth
| TagPadding | TagItemSpacing | TagGeomEnd
| TagAppearanceTitle | TagColorsTitle | TagFill
| TagTypographyTitle | TagFont | TagSize | TagWeight
| TagHAlign | TagVAlign | TagLineHeight
| TagBordersTitle | TagBorder | TagCornerRadius
| TagEffectsTitle | TagShadow
| TagContentTitle | TagText | TagBlockEnd
| TagChildrenTitle | TagDivider.

Definition tag_eqb (a b : tag) : bool :=
  match a, b with
  | TagHeader, TagHeader | TagIdentTitle, TagIdentTitle | TagName, TagName
  | TagType, TagType | TagPurpose, TagPurpose | TagGeomTitle, TagGeomTitle
  | TagPosition, TagPosition | TagDimensions, TagDimensions
  | TagAlignment, TagAlignment | TagGrowth, TagGrowth | TagPadding, TagPadding
  | TagItemSpacing, TagItemSpacing | TagGeomEnd, TagGeomEnd
  | TagAppearanceTitle, TagAppearanceTitle | TagColorsTitle, TagColorsTitle
  | TagFill, TagFill | TagTypographyTitle, TagTypographyTitle | TagFont, TagFont
  | TagSize, TagSize | TagWeight, TagWeight | TagHAlign, TagHAlign
  | TagVAlign, TagVAlign | TagLineHeight, TagLineHeight
  | TagBordersTitle, TagBordersTitle | TagBorder, TagBorder
  | TagCornerRadius, TagCornerRadius | TagEffectsTitle, TagEffectsTitle
  | TagShadow, TagShadow | TagContentTitle, TagContentTitle | TagText, TagText
  | TagBlockEnd, TagBlockEnd | TagChildrenTitle, TagChildrenTitle
  | TagDivider, TagDivider => true
  | _, _ => false
  end.

Definition piece : Type := tag * string.

(** The string the source has built once every piece is appended. *)
Definition render (ps : list piece) : string :=
  fold_right (fun p acc => snd p +:+ acc) EmptyString ps.

(** The pieces of [ps] appended by statement [t], in order. *)
Definition pieces_of (t : tag) (ps : list piece) : list piece :=
  List.filter (fun p => tag_eqb (fst p) t) ps.

Definition emits (t : tag) (ps : list piece) : bool :=
  existsb (fun p => tag_eqb (fst p) t) ps.

(** [xs.forEach((x, index) => ...)], the callback appending [body x index]. *)
Definition forEach {A : Type} (body : A -> nat -> list piece) : list A -> nat -> list piece :=
  fix loop (xs : list A) (index : nat) : list piece :=
    match xs with
    | [] => []
    | x :: rest => body x index ++ loop rest (S index)
    end.

(** [`${index + 1}`] and [`${xs.length}`]. *)
Definition nat_toString (n : nat) : string := Js.int_toString (Z.of_nat n).

Section Printer.

(** [String(q)] for an arbitrary number: JavaScript's shortest
    round-trip decimal printing, which the model leaves open. *)
Variable Number_toString : Q -> string.

Definition num_or (o : option Q) (d : string) : string :=
  if Js.truthy_num o then match o with Some q => Number_toString q | None => d end else d.

(** The element header. *)
Definition header (currentNode : DesignNode) (level : nat) : piece :=
  let indent := Js.repeat "  " level in
  (TagHeader,
   indent +:+ "## " +:+ (if (level =? 0)%nat then "🏗️ " else "📦 ")
     +:+ Js.or_str (name currentNode) "Unnamed element"
     +:+ " (" +:+ type currentNode +:+ ")" +:+ Js.nl +:+ Js.nl).

(** Identification and Purpose. *)
Definition identification (currentNode : DesignNode) (level : nat) : list piece :=
  let indent := Js.repeat "  " level in
  [ (TagIdentTitle, indent +:+ "### 🎯 Identification and Purpose" +:+ Js.nl);
    (TagName, indent +:+ "- **Name**: " +:+ Js.or_str (name currentNode) "Unnamed" +:+ Js.nl);
    (TagType, indent +:+ "- **Type**: " +:+ type currentNode +:+ Js.nl);
    (TagPurpose, indent +:+ "- **Apparent function**: "
       +:+ PurposeClassifier.inferElementPurpose (name currentNode) (type currentNode)
       +:+ Js.nl +:+ Js.nl) ].

(** Geometry and Position. *)
Definition geometry (currentNode : DesignNode) (level : nat) : list piece :=
  let indent := Js.repeat "  " level in
  if Js.truthy_obj (absoluteBoundingBox currentNode) || Js.truthy_obj (size currentNode) then
    [ (TagGeomTitle, indent +:+ "### 📐 Geometry and Position" +:+ Js.nl) ]
    ++ match absoluteBoundingBox currentNode with
       | Some box =>
           [ (TagPosition, indent +:+ "- **Position**: x=" +:+ Number_toString (x box)
                +:+ "px, y=" +:+ Number_toString (y box) +:+ "px" +:+ Js.nl);
             (TagDimensions, indent +:+ "- **Dimensions**: " +:+ Number_toString (width box)
                +:+ "px × " +:+ Number_toString (height box) +:+ "px" +:+ Js.nl) ]
       | None => []
       end
    ++ (if Js.truthy_str (layoutAlign currentNode)
        then [ (TagAlignment, indent +:+ "- **Alignment**: "
                  +:+ Js.or_str (layoutAlign currentNode) "" +:+ Js.nl) ]
        else [])
    ++ match layoutGrow currentNode with
       | Some grow => [ (TagGrowth, indent +:+ "- **Growth**: " +:+ Number_toString grow +:+ Js.nl) ]
       | None => []
       end
    ++ (if Js.truthy_num (paddingLeft currentNode) || Js.truthy_num (paddingTop currentNode)
           || Js.truthy_num (paddingRight currentNode) || Js.truthy_num (paddingBottom currentNode)
        then [ (TagPadding, indent +:+ "- **Padding**: top="
                  +:+ Number_toString (Js.or_num (paddingTop currentNode) 0)
                  +:+ "px, right=" +:+ Number_toString (Js.or_num (paddingRight currentNode) 0)
                  +:+ "px, bottom=" +:+ Number_toString (Js.or_num (paddingBottom currentNode) 0)
                  +:+ "px, left=" +:+ Number_toString (Js.or_num (paddingLeft currentNode) 0)
                  +:+ "px" +:+ Js.nl) ]
        else [])
    ++ match itemSpacing currentNode with
       | Some spacing =>
           [ (TagItemSpacing, indent +:+ "- **Item spacing**: " +:+ Number_toString spacing
                +:+ "px" +:+ Js.nl) ]
       | None => []
       end
    ++ [ (TagGeomEnd, Js.nl) ]
  else [].

(** One entry of the Colors list. *)
Definition fill_line (indent : string) (fill : Paint) (index : nat) : list piece :=
  if String.eqb (paint_type fill) "SOLID" then
    let color := rgbToHex (paint_color fill) in
    [ (TagFill, indent +:+ "- **Fill " +:+ nat_toString (index + 1) +:+ "**: " +:+ color
         +:+ " (Opacity: "
         +:+ Js.rounded_toString
               (Js.Math_round (Js.or_double (paint_opacity fill) 1 * 100)%float)
         +:+ "%)" +:+ Js.nl) ]
  else [].

Definition colors (currentNode : DesignNode) (level : nat) : list piece :=
  let indent := Js.repeat "  " level in
  match fills currentNode with
  | [] => []
  | _ :: _ =>
      (TagColorsTitle, indent +:+ "#### **Colors:**" +:+ Js.nl)
      :: forEach (fill_line indent) (fills currentNode) 0
  end.

Definition typography (currentNode : DesignNode) (level : nat) : list piece :=
  let indent := Js.repeat "  " level in
  match style currentNode with
  | Some st =>
      [ (TagTypographyTitle, indent +:+ "#### **Typography:**" +:+ Js.nl);
        (TagFont, indent +:+ "- **Font**: " +:+ Js.or_str (fontFamily st) "Not specified" +:+ Js.nl);
        (TagSize, indent +:+ "- **Size**: " +:+ num_or (fontSize st) "Not specified" +:+ "px" +:+ Js.nl);
        (TagWeight, indent +:+ "- **Weight**: " +:+ num_or (fontWeight st) "Normal" +:+ Js.nl) ]
      ++ (if Js.truthy_str (textAlignHorizontal st)
          then [ (TagHAlign, indent +:+ "- **Horizontal alignment**: "
                    +:+ Js.or_str (textAlignHorizontal st) "" +:+ Js.nl) ]
          else [])
      ++ (if Js.truthy_str (textAlignVertical st)
          then [ (TagVAlign, indent +:+ "- **Vertical alignment**: "
                    +:+ Js.or_str (textAlignVertical st) "" +:+ Js.nl) ]
          else [])
      ++ (if Js.truthy_num (lineHeightPx st)
          then [ (TagLineHeight, indent +:+ "- **Line height**: "
                    +:+ num_or (lineHeightPx st) "" +:+ "px" +:+ Js.nl) ]
          else [])
  | None => []
  end.

Definition border_line (indent : string) (currentNode : DesignNode)
    (stroke : Paint) (index : nat) : list piece :=
  if String.eqb (paint_type stroke) "SOLID" then
    let color := rgbToHex (paint_color stroke) in
    [ (TagBorder, indent +:+ "- **Border " +:+ nat_toString (index + 1) +:+ "**: " +:+ color
         +:+ ", width=" +:+ Number_toString (Js.or_num (strokeWeight currentNode) 1)
         +:+ "px" +:+ Js.nl) ]
  else [].

Definition borders (currentNode : DesignNode) (level : nat) : list piece :=
  let indent := Js.repeat "  " level in
  match strokes currentNode with
  | [] => []
  | _ :: _ =>
      (TagBordersTitle, indent +:+ "#### **Borders:**" +:+ Js.nl)
      :: forEach (border_line indent currentNode) (strokes currentNode) 0
      ++ match cornerRadius currentNode with
         | Some radius =>
             [ (TagCornerRadius, indent +:+ "- **Corner radius**: " +:+ Number_toString radius
                  +:+ "px" +:+ Js.nl) ]
         | None => []
         end
  end.

(** [effect.offset?.x || 0] and [effect.offset?.y || 0]. *)
Definition offset_x (effect : Effect) : Q :=
  Js.or_num (match effect_offset effect with Some v => vec_x v | None => None end) 0.

Definition offset_y (effect : Effect) : Q :=
  Js.or_num (match effect_offset effect with Some v => vec_y v | None => None end) 0.

Definition shadow_line (indent : string) (effect : Effect) (index : nat) : list piece :=
  if String.eqb (effect_type effect) "DROP_SHADOW" then
    let color := rgbToHex (effect_color effect) in
    [ (TagShadow, indent +:+ "- **Shadow " +:+ nat_toString (index + 1) +:+ "**: color=" +:+ color
         +:+ ", offset=(" +:+ Number_toString (offset_x effect) +:+ "px, "
         +:+ Number_toString (offset_y effect) +:+ "px), blur="
         +:+ Number_toString (Js.or_num (effect_radius effect) 0) +:+ "px" +:+ Js.nl) ]
  else [].

Definition effects_lines (currentNode : DesignNode) (level : nat) : list piece :=
  let indent := Js.repeat "  " level in
  match effects currentNode with
  | [] => []
  | _ :: _ =>
      (TagEffectsTitle, indent +:+ "#### **Effects:**" +:+ Js.nl)
      :: forEach (shadow_line indent) (effects currentNode) 0
  end.

Definition content (currentNode : DesignNode) (level : nat) : list piece :=
  let indent := Js.repeat "  " level in
  if Js.truthy_str (characters currentNode) then
    [ (TagContentTitle, indent +:+ "#### **Content:**" +:+ Js.nl);
      (TagText, indent +:+ "- **Text**: " +:+ Js.dquote
         +:+ Js.or_str (characters currentNode) "" +:+ Js.dquote +:+ Js.nl) ]
  else [].

(** Everything [analyzeNode] appends for the node itself, before it
    turns to the children. *)
Definition nodeBlock (currentNode : DesignNode) (level : nat) : list piece :=
  let indent := Js.repeat "  " level in
  [ header currentNode level ]
  ++ identification currentNode level
  ++ geometry currentNode level
  ++ [ (TagAppearanceTitle, indent +:+ "### 🎨 Visual Appearance" +:+ Js.nl) ]
  ++ colors currentNode level
  ++ typography currentNode level
  ++ borders currentNode level
  ++ effects_lines currentNode level
  ++ content currentNode level
  ++ [ (TagBlockEnd, Js.nl) ].

Definition childrenTitle (currentNode : DesignNode) (level : nat) : piece :=
  (TagChildrenTitle,
   Js.repeat "  " level +:+ "### 👥 Child Elements ("
     +:+ nat_toString (List.length (children currentNode)) +:+ ")" +:+ Js.nl +:+ Js.nl).

Definition divider (level : nat) : piece :=
  (TagDivider, Js.repeat "  " level +:+ "---" +:+ Js.nl +:+ Js.nl).

Fixpoint analyzeNode (currentNode : DesignNode) (level : nat) {struct currentNode}
    : list piece :=
  nodeBlock currentNode level
  ++ match children currentNode with
     | [] => []
     | _ :: _ =>
         childrenTitle currentNode level
         :: forEach
              (fun child index =>
                 analyzeNode child (level + 1)
                 ++ (if (index <? List.length (children currentNode) - 1)%nat
                     then [ divider level ]
                     else []))
              (children currentNode) 0
     end.

(** The global-context section and the fixed recommendations. *)
Definition globalContext (file : FileContext) : string :=
  Js.nl +:+ "## 🌐 Global File Context" +:+ Js.nl +:+ Js.nl
  +:+ "- **File name**: " +:+ file_name file +:+ Js.nl
  +:+ "- **Last modified**: " +:+ Js.or_str (lastModified file) "Not specified" +:+ Js.nl
  +:+ match globalVars file with
     | Some vars =>
         if (0 <? base.size vars)%nat
         then "- **Global variables detected**: " +:+ nat_toString (base.size vars) +:+ Js.nl
         else EmptyString
     | None => EmptyString
     end
  +:+ Js.nl +:+ "## 🔧 Implementation Recommendations" +:+ Js.nl +:+ Js.nl
  +:+ "This visual description has been automatically generated based on Figma data. "
  +:+ "To implement this design:" +:+ Js.nl +:+ Js.nl
  +:+ "1. **Use the hierarchical structure** described to organize your HTML/JSX" +:+ Js.nl
  +:+ "2. **Implement CSS styles** based on the specified measurements and colors" +:+ Js.nl
  +:+ "3. **Consider responsiveness** by adapting fixed measurements to relative units" +:+ Js.nl
  +:+ "4. **Optimize accessibility** by adding ARIA attributes and semantic tags" +:+ Js.nl +:+ Js.nl.

Definition generateDetailedVisualDescription (node : DesignNode) (file : FileContext) : string :=
  render (analyzeNode node 0) +:+ globalContext file.

End Printer.

(** A printer that is exact on whole numbers, to run the model on trees
    whose measurements are whole numbers. *)
Definition whole_toString (q : Q) : string := Js.int_toString (Qfloor q).

(** A node with a name, a type and children, every other field absent. *)
Definition plain (node_name node_type : string) (kids : list DesignNode) : DesignNode :=
  mkNode (Some node_name) node_type None None None None None None None None None
         [] None [] None None [] None kids.

(** *** Counting and ordering the nodes of a tree *)

Fixpoint countNodes (n : DesignNode) : nat :=
  S (list_sum (List.map countNodes (children n))).


(** [xss] joined with [sep] between consecutive members and none after
    the last. *)
Fixpoint separated (sep : list piece) (xss : list (list piece)) : list piece :=
  match xss with
  | [] => []
  | [xs] => xs
  | xs :: rest => xs ++ sep ++ separated sep rest
  end.

End DescriptorEngine.

(** ** ExportOrchestrator: the [download_figma_images] handler *)

Module ExportOrchestrator.

(** An entry of the [nodes] argument. *)
Record ExportRequest : Type := mkRequest {
  nodeId : string;
  imageRef : option string;
  fileName : string
}.

Inductive FileType : Type := svg | png.

(** An entry of the array handed to [getImages]. *)
Record RenderRequest : Type := mkRender {
  render_nodeId : string;
  render_fileName : string;
  fileType : FileType
}.

(** [nodes.filter(({ imageRef }) => !!imageRef)], handed to
    [getImageFills] as it is. *)
Definition imageFills (nodes : list ExportRequest) : list ExportRequest :=
  List.filter (fun req => Js.truthy_str (imageRef req)) nodes.

(** The [nodeId] of a render request in [src/mcp.ts]. *)
Definition forwardedNodeId (id : string) : string :=
  if Js.includes id "-" then Js.replace id "-" ":" else id.

Definition inferFileType (name : string) : FileType :=
  if Js.endsWith name ".svg" then svg else png.

(** [renderRequests] of [src/mcp.ts]. *)
Definition renderRequests (nodes : list ExportRequest) : list RenderRequest :=
  List.map
    (fun req => mkRender (forwardedNodeId (nodeId req)) (fileName req)
                  (inferFileType (fileName req)))
    (List.filter (fun req => negb (Js.truthy_str (imageRef req))) nodes).

(** [renderRequests] of the sibling binding module, which passes the
    [nodeId] on as it is. *)
Definition renderRequests_sibling (nodes : list ExportRequest) : list RenderRequest :=
  List.map
    (fun req => mkRender (nodeId req) (fileName req) (inferFileType (fileName req)))
    (List.filter (fun req => negb (Js.truthy_str (imageRef req))) nodes).

(** What the fetch service reports per item, as a JavaScript value: the
    handler only tests its truthiness and prints it. *)
Inductive JsValue : Type :=
| JsUndefined
| JsBool (b : bool)
| JsString (s : string).

Definition truthy (v : JsValue) : bool :=
  match v with
  | JsUndefined => false
  | JsBool b => b
  | JsString s => negb (Js.is_empty s)
  end.

(** The text [Array.prototype.join] gives an element. *)
Definition toJoinString (v : JsValue) : string :=
  match v with
  | JsUndefined => EmptyString
  | JsBool true => "true"
  | JsBool false => "false"
  | JsString s => s
  end.

(** [xs.find(p)]: the first element that satisfies [p], [undefined] when
    there is none. *)
Fixpoint Array_find (p : JsValue -> bool) (xs : list JsValue) : JsValue :=
  match xs with
  | [] => JsUndefined
  | x :: rest => if p x then x else Array_find p rest
  end.

(** [Promise.all([fillDownloads, renderDownloads]).then(([f, r]) => [...f, ...r])]. *)
Definition downloads (f r : list JsValue) : list JsValue := f ++ r.

(** [!downloads.find((success) => !success)]. *)
Definition saveSuccess (ds : list JsValue) : bool :=
  negb (truthy (Array_find (fun success => negb (truthy success)) ds)).

(** The text of the answer once both downloads have settled. *)
Definition answer (f r : list JsValue) : string :=
  let ds := downloads f r in
  if saveSuccess ds
  then "Success, " +:+ Js.int_toString (Z.of_nat (List.length ds))
       +:+ " images downloaded: " +:+ Js.join ", " (List.map toJoinString ds)
  else "Failed".

(** The handler on its successful path, the two operations of the fetch
    service being given: what each is handed, and the answer made of what
    they report. *)
Definition download_figma_images
    (getImageFills : list ExportRequest -> list JsValue)
    (getImages : list RenderRequest -> list JsValue)
    (nodes : list ExportRequest) : string :=
  let fillDownloads := getImageFills (imageFills nodes) in
  let renderDownloads := getImages (renderRequests nodes) in
  answer fillDownloads renderDownloads.

(** The aggregate the handler's comment announces: no item failed. *)
Definition every_item_succeeded (ds : list JsValue) : bool :=
  forallb truthy ds.

(** How a forwarded [nodeId] relates to the requested one. *)
Definition first_dash_replaced (id id' : string) : Prop :=
  exists pre post,
    id = pre +:+ "-" +:+ post
    /\ Js.includes pre "-" = false
    /\ id' = pre +:+ ":" +:+ post.

End ExportOrchestrator.

(** ** DocumentAssembler: file-name sanitiser and complexity label *)

Module DocumentAssembler.

Definition in_range (lo hi : nat) (c : ascii) : bool :=
  (lo <=? nat_of_ascii c)%nat && (nat_of_ascii c <=? hi)%nat.

(** The character class [[a-z0-9]]. *)
Definition lower_alnum (c : ascii) : bool :=
  in_range 97 122 c || in_range 48 57 c.

Definition is_dash (c : ascii) : bool := Ascii.eqb c "-".

(** [s.replace(/[^a-z0-9]+/g, "-")]: scanning from the left, a match
    starts at a character outside the class, extends over every following
    character outside the class, and is replaced by one dash.  [in_match]
    says that the scan is inside a match. *)
Fixpoint replace_runs (in_match : bool) (s : string) : string :=
  match s with
  | EmptyString => EmptyString
  | String c rest =>
      if lower_alnum c then String c (replace_runs false rest)
      else if in_match then replace_runs true rest
      else String "-" (replace_runs true rest)
  end.

Fixpoint all_dashes (s : string) : bool :=
  match s with
  | EmptyString => true
  | String c rest => is_dash c && all_dashes rest
  end.

(** The match of [^-+] at the start of the string, removed. *)
Fixpoint drop_leading_dashes (s : string) : string :=
  match s with
  | EmptyString => EmptyString
  | String c rest => if is_dash c then drop_leading_dashes rest else s
  end.

(** The match of [-+$], removed: it starts at the first position from
    which only dashes follow. *)
Fixpoint drop_trailing_dashes (s : string) : string :=
  match s with
  | EmptyString => EmptyString
  | String c rest =>
      if is_dash c && all_dashes rest then EmptyString
      else String c (drop_trailing_dashes rest)
  end.

(** [s.replace(/^-+|-+$/g, "")]. *)
Definition replace_edge_dashes (s : string) : string :=
  drop_trailing_dashes (drop_leading_dashes s).

(** The chain applied to the title in the three document tools. *)
Definition sanitizedFileName (title : string) : string :=
  replace_edge_dashes (replace_runs false (Js.toLowerCase title)).

(** The title each tool starts from. *)
Definition title_data_to_file (fileName : option string) (file_name : string) : string :=
  Js.or_str fileName file_name.

Definition title_visual_description (fileName node_name : option string) : string :=
  Js.or_str fileName (Js.or_str node_name "visual-analysis").

Definition title_technical_specification (fileName node_name : option string) : string :=
  Js.or_str fileName (Js.or_str node_name "technical-spec").

(** *** The same, following the words of the specification *)

(** A letter or a digit. *)
Definition alphanumeric (c : ascii) : bool :=
  in_range 97 122 c || in_range 65 90 c || in_range 48 57 c.

(** The maximal runs of a string: consecutive characters that are all
    alphanumeric or all not, with the flag of the run. *)
Fixpoint runs (s : string) : list (bool * string) :=
  match s with
  | EmptyString => []
  | String c rest =>
      match runs rest with
      | (flag, run) :: more =>
          if Bool.eqb flag (alphanumeric c)
          then (flag, String c run) :: more
          else (alphanumeric c, String c EmptyString) :: (flag, run) :: more
      | [] => [ (alphanumeric c, String c EmptyString) ]
      end
  end.

(** Every run of non-alphanumeric characters collapsed to one dash. *)
Definition collapse (s : string) : string :=
  fold_right
    (fun (run : bool * string) acc => (if fst run then snd run else "-") +:+ acc)
    EmptyString (runs s).

Fixpoint reverse (s : string) : string :=
  match s with
  | EmptyString => EmptyString
  | String c rest => reverse rest +:+ String c EmptyString
  end.

(** Leading and trailing dashes removed. *)
Definition trim_dashes (s : string) : string :=
  reverse (drop_leading_dashes (reverse (drop_leading_dashes s))).

Definition sanitize_spec (title : string) : string :=
  trim_dashes (collapse (Js.toLowerCase title)).

(** No capital letter in the string. *)
Fixpoint no_upper (s : string) : bool :=
  match s with
  | EmptyString => true
  | String c rest => negb (in_range 65 90 c) && no_upper rest
  end.

(** The string starts with a character that is not alphanumeric. *)
Definition starts_outside (s : string) : bool :=
  match s with
  | EmptyString => false
  | String c _ => negb (alphanumeric c)
  end.

(** *** The complexity label of [generate_technical_specification]

    [nodes] is the array of top-level nodes of the fetched file; the node
    the document analyses is [nodes[0]]. *)
Definition complexityLevel (nodes : list DescriptorEngine.DesignNode) : string :=
  if (5 <? List.length nodes)%nat then "High"
  else if (2 <? List.length nodes)%nat then "Medium"
  else "Low".

Definition complexityLine (nodes : list DescriptorEngine.DesignNode) : string :=
  "- **Complexity Level**: " +:+ complexityLevel nodes +:+ " ("
  +:+ DescriptorEngine.nat_toString (List.length nodes) +:+ " total elements)".

End DocumentAssembler.

(** ** Sample inputs *)

Module Samples.

Import ColorCodec DescriptorEngine.

Local Open Scope Q_scope.

(** A frame with one white fill of opacity 0 and a text child. *)
Definition login_screen : DesignNode :=
  mkNode (Some "Login Screen") "FRAME" (Some (mkRect 0 0 375 812)) None None None
         None None None None None
         [ mkPaint "SOLID" (Some (mkRGB 1 1 1)) (Some 0%float) ]
         None [] None None [] None
         [ mkNode (Some "Email") "TEXT" None None None None None None None None None
                  [] None [] None None [] (Some "Email") [] ].

Definition login_file : FileContext :=
  mkFile "Design" None None.

(** An auto-layout row that carries layout fields but neither a bounding
    box nor a size. *)
Definition row_without_box : DesignNode :=
  mkNode (Some "Row") "FRAME" None None (Some "STRETCH") (Some 1)
         (Some 8) (Some 8) (Some 8) (Some 8) (Some 4)
         [] None [] None None [] None [].

(** The same row with a bounding box. *)
Definition row_with_box : DesignNode :=
  mkNode (Some "Row") "FRAME" (Some (mkRect 0 0 100 40)) None (Some "STRETCH") (Some 1)
         (Some 8) (Some 8) (Some 8) (Some 8) (Some 4)
         [] None [] None None [] None [].

(** A boxed row whose alignment is the empty string. *)
Definition row_empty_alignment : DesignNode :=
  mkNode (Some "Row") "FRAME" (Some (mkRect 0 0 100 40)) None (Some EmptyString) None
         None None None None None
         [] None [] None None [] None [].

(** One top-level frame with six children: seven nodes. *)
Definition seven_nodes : DesignNode :=
  plain "Screen" "FRAME"
        [ plain "a" "TEXT" []; plain "b" "TEXT" []; plain "c" "TEXT" [];
          plain "d" "TEXT" []; plain "e" "TEXT" []; plain "f" "TEXT" [] ].

(** A small tree: a root with two children, the second with one child. *)
Definition small_tree : DesignNode :=
  plain "root" "FRAME"
        [ plain "first" "TEXT" [];
          plain "second" "GROUP" [ plain "inner" "VECTOR" [] ] ].

End Samples.

(** ** Logger: the two output streams *)

Module Logger.

(** The two streams of the console, each the lines written so far; a line
    is the list of the arguments printed. *)
Record Console : Type := mkConsole {
  stdout : list (list string);
  stderr : list (list string)
}.

(** The process-wide state: the [isHTTP] field of the [Logger] object and
    the console. *)
Record State : Type := mkState {
  isHTTP : bool;
  console : Console
}.

Definition console_log (args : list string) (c : Console) : Console :=
  mkConsole (stdout c ++ [args]) (stderr c).

Definition console_error (args : list string) (c : Console) : Console :=
  mkConsole (stdout c) (stderr c ++ [args]).

(** The object as the module creates it. *)
Definition initial : State := mkState false (mkConsole [] []).

(** [Logger.log(...args)]. *)
Definition log (args : list string) (st : State) : State :=
  if isHTTP st
  then mkState (isHTTP st) (console_log ("[INFO]" :: args) (console st))
  else mkState (isHTTP st) (console_error ("[INFO]" :: args) (console st)).

(** [Logger.error(...args)]. *)
Definition error (args : list string) (st : State) : State :=
  mkState (isHTTP st) (console_error ("[ERROR]" :: args) (console st)).

(** The assignment [Logger.isHTTP = isHTTP] made by [createServer]. *)
Definition set_isHTTP (flag : bool) (st : State) : State :=
  mkState flag (console st).

(** What the rest of the code does to the logger. *)
Inductive call : Type :=
| Log (args : list string)
| Error (args : list string)
| CreateServer (flag : bool).

Definition step (st : State) (c : call) : State :=
  match c with
  | Log args => log args st
  | Error args => error args st
  | CreateServer flag => set_isHTTP flag st
  end.

Definition run (calls : list call) (st : State) : State :=
  fold_left step calls st.

Definition is_message (c : call) : bool :=
  match c with
  | Log _ | Error _ => true
  | CreateServer _ => false
  end.

Definition enables_http (c : call) : bool :=
  match c with
  | CreateServer true => true
  | _ => false
  end.

(** A line written by [Logger.error]. *)
Definition is_error_line (line : list string) : bool :=
  match line with
  | label :: _ => String.eqb label "[ERROR]"
  | [] => false
  end.

(** The lines the [Error] calls print, in order. *)
Definition error_lines (calls : list call) : list (list string) :=
  flat_map (fun c => match c with Error args => [ "[ERROR]" :: args ] | _ => [] end) calls.

End Logger.

(** ** The directory the document tools write to *)

Module Workspace.

(** The environment variables read, and [process.cwd()]. *)
Record ProcessEnv : Type := mkEnv {
  PWD : option string;
  INIT_CWD : option string;
  HOME : option string;
  USERPROFILE : option string;
  cwd : string
}.

Definition getClientWorkingDirectory (env : ProcessEnv) : string :=
  let userDir := Js.or_str (PWD env) (Js.or_str (INIT_CWD env) (cwd env)) in
  if Js.is_empty userDir || String.eqb userDir "/"
  then Js.or_str (HOME env) (Js.or_str (USERPROFILE env) "./")
  else userDir.

(** [safePath] of the [get_figma_data_to_file] handler. *)
Definition safePath (clientWorkingDir : string) : string :=
  if Js.is_empty clientWorkingDir || String.eqb clientWorkingDir "/"
     || Js.startsWith clientWorkingDir "/usr" || Js.startsWith clientWorkingDir "/etc"
  then "./"
  else clientWorkingDir.

(** The block appended to [.gitignore]. *)
Definition gitignore_block : string :=
  Js.nl +:+ "# Figma exported data" +:+ Js.nl +:+ "*-figma-data.md" +:+ Js.nl
  +:+ "*-visual-description.md" +:+ Js.nl +:+ "*-technical-specification.md" +:+ Js.nl.

(** The [.gitignore] step of [get_figma_data_to_file]: the content of the
    file before ([None] when it does not exist) and after. *)
Definition update_gitignore (file : option string) : option string :=
  match file with
  | Some gitignoreContent =>
      if negb (Js.includes gitignoreContent "*-figma-data.md")
      then Some (gitignoreContent +:+ gitignore_block)
      else Some gitignoreContent
  | None => None
  end.

(** The names of the files the three document tools write. *)
Definition outputFileName_data (fileName : option string) (file_name : string) : string :=
  DocumentAssembler.sanitizedFileName (DocumentAssembler.title_data_to_file fileName file_name)
  +:+ ".md".

Definition outputFileName_visual (fileName node_name : option string) : string :=
  DocumentAssembler.sanitizedFileName
    (DocumentAssembler.title_visual_description fileName node_name)
  +:+ "-visual-description.md".

Definition outputFileName_specification (fileName node_name : option string) : string :=
  DocumentAssembler.sanitizedFileName
    (DocumentAssembler.title_technical_specification fileName node_name)
  +:+ "-technical-specification.md".

(** [outputPath] of the [get_figma_data_to_file] handler of [src/mcp.ts],
    which is given the path of the file to write. *)
Definition outputPath (filePath : string) : string :=
  if negb (Js.endsWith filePath ".md") then filePath +:+ ".md" else filePath.

(** The filter of [list_figma_exports]. *)
Definition is_listed (file : string) : bool :=
  Js.endsWith file "-visual-description.md"
  || Js.endsWith file "-technical-specification.md"
  || Js.endsWith file "-figma-data.md".

End Workspace.

(** ** The process around the functions *)

Module Runtime.

Import DescriptorEngine.

(** What a function of the server can reach besides its arguments: the
    [Logger] object with the console, the environment of the process, the
    clock and the files. *)
Record World : Type := mkWorld {
  logger : Logger.State;
  env : Workspace.ProcessEnv;
  now : string;
  files : gmap string string
}.

(** A computation of the process: from the world before, its value and
    the world after. *)
Definition JS (A : Type) : Type := World -> A * World.

Definition ret {A : Type} (a : A) : JS A := fun w => (a, w).

Definition bind {A B : Type} (m : JS A) (k : A -> JS B) : JS B :=
  fun w => let (a, w') := m w in k a w'.

Notation "'let*' x ':=' m 'in' k" := (bind m (fun x => k))
  (at level 10, x name, m at level 100, k at level 200, only parsing).

(** *** The ways into the world that the source uses *)

(** [Logger.log(...args)]. *)
Definition Logger_log (args : list string) : JS unit :=
  fun w => (tt, mkWorld (Logger.log args (logger w)) (env w) (now w) (files w)).

(** [new Date().toISOString()]. *)
Definition Date_toISOString : JS string := fun w => (now w, w).

(** [getClientWorkingDirectory()]. *)
Definition getClientWorkingDirectory : JS string :=
  fun w => (Workspace.getClientWorkingDirectory (env w), w).

(** [`${x}`] for a property that holds a string or is absent. *)
Definition template (o : option string) : string :=
  match o with Some s => s | None => "undefined" end.

Section Printer.

Variable Number_toString : Q -> string.

(** *** The descriptor, run in the process

    Every call of a function of the source is a step of the computation;
    [description] is the local variable the statements append to. *)

(** [currentNode.children.forEach((child, index) => { ... })]. *)
Definition forEachChild (analyze : DesignNode -> JS string) (count level : nat)
    : list DesignNode -> nat -> string -> JS string :=
  fix loop (kids : list DesignNode) (index : nat) (description : string) : JS string :=
    match kids with
    | [] => ret description
    | child :: rest =>
        let* childDescription := analyze child in
        let description := description +:+ childDescription in
        let description :=
          if (index <? count - 1)%nat
          then description +:+ snd (divider level)
          else description in
        loop rest (S index) description
    end.

Fixpoint analyzeNode (currentNode : DesignNode) (level : nat) {struct currentNode}
    : JS string :=
  let description := render (nodeBlock Number_toString currentNode level) in
  match children currentNode with
  | [] => ret description
  | _ :: _ =>
      let description := description +:+ snd (childrenTitle currentNode level) in
      forEachChild (fun child => analyzeNode child (level + 1))
                   (List.length (children currentNode)) level
                   (children currentNode) 0 description
  end.

Definition generateDetailedVisualDescription (node : DesignNode) (file : FileContext)
    : JS string :=
  let* fullDescription := analyzeNode node 0 in
  ret (fullDescription +:+ globalContext file).

(** *** The document of [generate_visual_description]

    The statements of the handler from the fetched node to the content of
    the file: a log line, the directory, the description and the document
    around it.  [technicalData] is the YAML dump of the node. *)
Definition visualDocument (fileKey nodeId : string) (node : DesignNode)
    (file : FileContext) (technicalData : string) : JS (string * string) :=
  let* _ := Logger_log [ "Successfully fetched node: " +:+ template (name node) ] in
  let* clientWorkingDir := getClientWorkingDirectory in
  let* visualDescription := generateDetailedVisualDescription node file in
  let* date := Date_toISOString in
  let markdownContent :=
    "# Detailed Visual Description: " +:+ template (name node) +:+ Js.nl
    +:+ Js.nl
    +:+ "## Analysis Information" +:+ Js.nl
    +:+ "- **Figma File**: " +:+ fileKey +:+ Js.nl
    +:+ "- **Analyzed Node**: " +:+ template (name node) +:+ " (" +:+ nodeId +:+ ")" +:+ Js.nl
    +:+ "- **Analysis Date**: " +:+ date +:+ Js.nl
    +:+ "- **Element Type**: " +:+ type node +:+ Js.nl
    +:+ Js.nl
    +:+ "---" +:+ Js.nl
    +:+ Js.nl
    +:+ "## 🎯 Ultra-Detailed Visual Description" +:+ Js.nl
    +:+ Js.nl
    +:+ visualDescription +:+ Js.nl
    +:+ Js.nl
    +:+ "---" +:+ Js.nl
    +:+ Js.nl
    +:+ "## 📊 Technical Node Data" +:+ Js.nl
    +:+ Js.nl
    +:+ "```yaml" +:+ Js.nl
    +:+ technicalData +:+ Js.nl
    +:+ "```" +:+ Js.nl
    +:+ Js.nl
    +:+ "---" +:+ Js.nl
    +:+ "*Generated automatically by Figma Context MCP - Visual Analysis*" +:+ Js.nl in
  ret (clientWorkingDir, markdownContent).

End Printer.

End Runtime.

(** ** StructureTreeRenderer: [generateStructureTree] *)

Module StructureTree.

Import DescriptorEngine.

(** The line of one child. *)
Definition tree_line (child : DesignNode) (level : nat) : string :=
  Js.nl +:+ Js.repeat "  " level +:+ "├── " +:+ Js.or_str (name child) "Unnamed"
  +:+ " (" +:+ type child +:+ ")".

(** The strings appended to [tree], in order: for every child its line,
    then what the call on the child returns. *)
Fixpoint generateStructureTree_lines (node : DesignNode) (level : nat) : list string :=
  flat_map
    (fun child => tree_line child level :: generateStructureTree_lines child (level + 1))
    (children node).

Definition generateStructureTree (node : DesignNode) (level : nat) : string :=
  fold_right String.append EmptyString (generateStructureTree_lines node level).


End StructureTree.

(** ** The header check of the HTTP binding *)

Module HttpBinding.

Inductive Verdict : Type :=
| Next
| Reject (status : Z) (code : Z) (message : string).

(** [validateMcpHeaders]: the method, the path and the [content-type]
    header of the request. *)
Definition validateMcpHeaders (method path : string) (contentType : option string) : Verdict :=
  if String.eqb method "POST" && String.eqb path "/mcp" then
    if negb (Js.truthy_str contentType)
       || negb (Js.includes (Js.or_str contentType "") "application/json")
    then Reject 400 (-32600) "Invalid request - Content-Type must be application/json"
    else Next
  else Next.

End HttpBinding.

(** ** Predicates on strings used in the statements *)

Module Text.

(** Every character of the string satisfies [p]. *)
Fixpoint all_chars (p : ascii -> bool) (s : string) : bool :=
  match s with
  | EmptyString => true
  | String c rest => p c && all_chars p rest
  end.

(** Some character of the string satisfies [p]. *)
Fixpoint some_char (p : ascii -> bool) (s : string) : bool :=
  match s with
  | EmptyString => false
  | String c rest => p c || some_char p rest
  end.

(** A character of ASCII: one byte below 128. *)
Definition is_ascii (c : ascii) : bool := (nat_of_ascii c <? 128)%nat.

(** A character a sanitised name may hold. *)
Definition slug_char (c : ascii) : bool :=
  DocumentAssembler.lower_alnum c || DocumentAssembler.is_dash c.

Definition starts_with_dash (s : string) : bool :=
  match s with
  | EmptyString => false
  | String c _ => DocumentAssembler.is_dash c
  end.

Fixpoint ends_with_dash (s : string) : bool :=
  match s with
  | EmptyString => false
  | String c EmptyString => DocumentAssembler.is_dash c
  | String _ rest => ends_with_dash rest
  end.

(** Two dashes in a row somewhere in the string. *)
Fixpoint double_dash (s : string) : bool :=
  match s with
  | EmptyString => false
  | String c rest =>
      (DocumentAssembler.is_dash c && starts_with_dash rest) || double_dash rest
  end.

(** The shape of a sanitised name. *)
Definition clean_slug (s : string) : Prop :=
  all_chars slug_char s = true
  /\ starts_with_dash s = false
  /\ ends_with_dash s = false
  /\ double_dash s = false.

(** The number of entries of an array whose type is [t]. *)
Definition count_type {A : Type} (type_of : A -> string) (t : string) (xs : list A) : nat :=
  List.length (List.filter (fun x => String.eqb (type_of x) t) xs).

(** The dividers and the child-count titles of a list of pieces. *)
Definition separators (ps : list DescriptorEngine.piece) : nat :=
  (List.length (DescriptorEngine.pieces_of DescriptorEngine.TagDivider ps) + List.length (DescriptorEngine.pieces_of DescriptorEngine.TagChildrenTitle ps))%nat.

(** The text is the blank separator or starts with the indentation of
    depth [level]. *)
Definition indented (level : nat) (text : string) : bool :=
  String.eqb text Js.nl || Js.startsWith text (Js.repeat "  " level).

End Text.

(* ================================================================== *)
(** * Part II: properties *)
(* ================================================================== *)

Example toHex_white : ColorCodec.rgbToHex (Some (ColorCodec.mkRGB 1 1 1)) = "#ffffff".
Proof. vm_compute. reflexivity. Qed.

Example toHex_mixed :
  ColorCodec.rgbToHex (Some (ColorCodec.mkRGB 0 0.5 0.25)) = "#008040".
Proof. vm_compute. reflexivity. Qed.

(** The double nearest to 0.3 is below 0.3, yet its product with 255 is
    the double 76.5, which rounds up; the double nearest to 76/255 gives
    76. *)
Example toHex_rounded_product :
  ColorCodec.toHex 0x1.3333333333333p-2 = "4d"
  /\ Js.Math_round (0x1.3333333333333p-2 * 255)%float = Js.Whole 77
  /\ ColorCodec.toHex 0x1.3131313131313p-2 = "4c".
Proof. repeat split; vm_compute; reflexivity. Qed.

(** [Math.round] on ties and around zero. *)
Example Math_round_ties :
  Js.Math_round 2.5 = Js.Whole 3
  /\ Js.Math_round (-2.5) = Js.Whole (-2)
  /\ Js.Math_round (-0.5) = Js.Whole 0
  /\ Js.Math_round 0x1.fffffffffffffp-2 = Js.Whole 0
  /\ Js.Math_round 0x1p60 = Js.Whole (2 ^ 60)
  /\ Js.Math_round nan = Js.NaN.
Proof. repeat split; vm_compute; reflexivity. Qed.

(** The same for an opacity: the product of the double nearest to 0.015
    with 100 is the double 1.5. *)
Example opacity_rounded_product :
  Js.rounded_toString (Js.Math_round (Js.or_double (Some 0x1.eb851eb851eb8p-7) 1 * 100)%float)
  = "2".
Proof. vm_compute. reflexivity. Qed.

Example purpose_text :
  PurposeClassifier.inferElementPurpose (Some "Login Button") "TEXT" = "Text element".
Proof. reflexivity. Qed.

Example purpose_button :
  PurposeClassifier.inferElementPurpose (Some "Login Button") "RECTANGLE" = "Button".
Proof. vm_compute. reflexivity. Qed.

Example purpose_fallback :
  PurposeClassifier.inferElementPurpose None "VECTOR" = "vector element".
Proof. vm_compute. reflexivity. Qed.

Example sanitize_login :
  DocumentAssembler.sanitizedFileName "Login Screen!! v2" = "login-screen-v2".
Proof. vm_compute. reflexivity. Qed.

Example sanitize_spec_login :
  DocumentAssembler.sanitize_spec "--Login Screen!! v2 - " = "login-screen-v2".
Proof. vm_compute. reflexivity. Qed.

Example forwarded_1 : ExportOrchestrator.forwardedNodeId "12-34-56" = "12:34-56".
Proof. vm_compute. reflexivity. Qed.

(* ------------------------------------------------------------------ *)
(** ** Strings *)
(* ------------------------------------------------------------------ *)

Section StringFacts.

Lemma append_assoc (a b c : string) : (a +:+ b) +:+ c = a +:+ (b +:+ c).
Proof. induction a as [|x a IH]; simpl; [reflexivity | now rewrite IH]. Qed.

Lemma append_empty_r (a : string) : a +:+ EmptyString = a.
Proof. induction a as [|x a IH]; simpl; [reflexivity | now rewrite IH]. Qed.

Lemma startsWith_empty (s : string) : Js.startsWith s EmptyString = true.
Proof. destruct s; reflexivity. Qed.

(** What [replace] does with a one-character pattern: the string is cut
    at the first occurrence of the character. *)
Lemma replace_char_first (c : ascii) (r s : string) :
  Js.includes s (String c EmptyString) = true ->
  exists pre post,
    s = pre +:+ String c post
    /\ Js.includes pre (String c EmptyString) = false
    /\ Js.replace s (String c EmptyString) r = pre +:+ r +:+ post.
Proof.
  induction s as [|a s IH]; simpl.
  - discriminate.
  - rewrite startsWith_empty, andb_true_r.
    destruct (Ascii.eqb c a) eqn:E; simpl.
    + intros _. apply Ascii.eqb_eq in E. subst a.
      exists EmptyString, s. simpl. auto.
    + intros H. destruct (IH H) as (pre & post & -> & Hpre & Hrep).
      exists (String a pre), post. simpl.
      rewrite startsWith_empty, andb_true_r, E. simpl.
      rewrite Hpre, Hrep. auto.
Qed.

End StringFacts.

(* ------------------------------------------------------------------ *)
(** ** ColorCodec *)
(* ------------------------------------------------------------------ *)

Section ColorCodecFacts.

Import ColorCodec.

Lemma pad_hex_table :
  forallb (fun k => String.eqb (pad_hex (Z.of_nat k)) (two_hex_digits (Z.of_nat k)))
          (seq 0 256) = true.
Proof. vm_compute. reflexivity. Qed.

Lemma pad_hex_byte (n : Z) : (0 <= n <= 255)%Z -> pad_hex n = two_hex_digits n.
Proof.
  intros Hn.
  pose proof pad_hex_table as T.
  rewrite forallb_forall in T.
  specialize (T (Z.to_nat n)).
  rewrite Z2Nat.id in T by lia.
  apply String.eqb_eq, T, in_seq. lia.
Qed.

(** *** The product of a channel with 255, as the machine rounds it *)

Import Binary64.

Local Open Scope Z_scope.

Lemma digits2_pos_lower (m : positive) : 2 ^ (Z.pos (digits2_pos m) - 1) <= Z.pos m.
Proof.
  induction m as [m IH | m IH |]; cbn [digits2_pos].
  - rewrite Pos2Z.inj_succ. replace (Z.succ (Z.pos (digits2_pos m)) - 1)
      with (Z.succ (Z.pos (digits2_pos m) - 1)) by lia.
    rewrite Z.pow_succ_r by lia. lia.
  - rewrite Pos2Z.inj_succ. replace (Z.succ (Z.pos (digits2_pos m)) - 1)
      with (Z.succ (Z.pos (digits2_pos m) - 1)) by lia.
    rewrite Z.pow_succ_r by lia. lia.
  - simpl. lia.
Qed.

Lemma digits2_pos_upper (m : positive) : Z.pos m < 2 ^ Z.pos (digits2_pos m).
Proof.
  induction m as [m IH | m IH |]; cbn [digits2_pos].
  - rewrite Pos2Z.inj_succ, Z.pow_succ_r by lia. lia.
  - rewrite Pos2Z.inj_succ, Z.pow_succ_r by lia. lia.
  - simpl. lia.
Qed.

Lemma shifted_1 (a : shr_record) : 0 <= shr_m a -> shifted 1 a (shr_1 a).
Proof.
  destruct a as [m r s]. unfold shifted. cbn [shr_m shr_r shr_s]. intros Hm.
  change (2 ^ 1) with 2.
  destruct m as [| p | p]; [| destruct p as [p | p |] |]; cbn [shr_1 shr_m shr_r shr_s].
  - split; [reflexivity |]. rewrite Z.mod_0_l by lia. tauto.
  - split; [rewrite Pos2Z.inj_xI; apply Z.div_unique with 1; lia |].
    rewrite Pos2Z.inj_xI. replace ((2 * Z.pos p + 1) mod 2) with 1
      by (apply Z.mod_unique with (Z.pos p); lia).
    cbn. split; [discriminate | lia].
  - split; [rewrite Pos2Z.inj_xO; apply Z.div_unique with 0; lia |].
    rewrite Pos2Z.inj_xO. replace ((2 * Z.pos p) mod 2) with 0
      by (apply Z.mod_unique with (Z.pos p); lia).
    cbn. tauto.
  - split; [reflexivity |]. cbn. split; [discriminate | intros [H _]; discriminate].
  - lia.
Qed.

Lemma shifted_trans (n1 n2 : Z) (a b c : shr_record) :
  0 <= n1 -> 0 <= n2 -> 0 <= shr_m a ->
  shifted n1 a b -> shifted n2 b c -> shifted (n1 + n2) a c.
Proof.
  intros H1 H2 Ha [E1 F1] [E2 F2]. unfold shifted.
  assert (P1 : 0 < 2 ^ n1) by (apply Z.pow_pos_nonneg; lia).
  assert (P2 : 0 < 2 ^ n2) by (apply Z.pow_pos_nonneg; lia).
  rewrite Z.pow_add_r by assumption. split.
  - rewrite E2, E1, Z.div_div by lia. reflexivity.
  - rewrite F2, F1, E1. rewrite Z.rem_mul_r by lia.
    pose proof (Z.mod_pos_bound (shr_m a) (2 ^ n1) P1).
    pose proof (Z.mod_pos_bound (shr_m a / 2 ^ n1) (2 ^ n2) P2).
    split.
    + intros (A & B & C). split; [| assumption]. rewrite B, A. lia.
    + intros (A & C). repeat split; [nia | nia | assumption].
Qed.

Lemma shifted_nonneg (n : Z) (a b : shr_record) :
  0 <= n -> 0 <= shr_m a -> shifted n a b -> 0 <= shr_m b.
Proof.
  intros Hn Ha [E _]. rewrite E. apply Z.div_pos; [assumption |].
  apply Z.pow_pos_nonneg; lia.
Qed.

Lemma iter_pos_shr_1 (p : positive) (a : shr_record) :
  0 <= shr_m a -> shifted (Z.pos p) a (SpecFloat.iter_pos shr_1 p a).
Proof.
  revert a. induction p as [p IH | p IH |]; intros a Ha; cbn [SpecFloat.iter_pos].
  - pose proof (shifted_1 a Ha) as S1.
    pose proof (shifted_nonneg 1 _ _ ltac:(lia) Ha S1) as N1.
    pose proof (IH _ N1) as S2.
    pose proof (shifted_nonneg (Z.pos p) _ _ ltac:(lia) N1 S2) as N2.
    pose proof (IH _ N2) as S3.
    rewrite Pos2Z.inj_xI. replace (2 * Z.pos p + 1) with (1 + Z.pos p + Z.pos p) by lia.
    eapply shifted_trans; [lia | lia | assumption | | exact S3].
    eapply shifted_trans; [lia | lia | assumption | exact S1 | exact S2].
  - pose proof (IH _ Ha) as S1.
    pose proof (shifted_nonneg (Z.pos p) _ _ ltac:(lia) Ha S1) as N1.
    pose proof (IH _ N1) as S2.
    rewrite Pos2Z.inj_xO. replace (2 * Z.pos p) with (Z.pos p + Z.pos p) by lia.
    eapply shifted_trans; [lia | lia | assumption | exact S1 | exact S2].
  - apply shifted_1, Ha.
Qed.

Lemma Zdigits2_bound (m k : Z) : 0 <= m -> 0 <= k -> m < 2 ^ k -> Zdigits2 m <= k.
Proof.
  intros Hm Hk Hlt. destruct m as [| p | p]; cbn [Zdigits2]; [lia | | lia].
  pose proof (digits2_pos_lower p) as L.
  assert (Z.pos (digits2_pos p) - 1 < k); [| lia].
  apply (Z.pow_lt_mono_r_iff 2); lia.
Qed.

(** Aligning a value that is at most 255 to its binary64 exponent keeps it
    at most 255, and reaches 255 only when nothing was shifted out. *)
Lemma shr_fexp_le_255 (m e : Z) :
  0 <= m -> e <= 0 -> m <= 255 * 2 ^ (- e) ->
  let '(mrs, e') := shr_fexp prec emax m e loc_Exact in
  e' <= 0 /\ 0 <= shr_m mrs <= 255 * 2 ^ (- e')
  /\ (shr_m mrs = 255 * 2 ^ (- e') -> loc_of_shr_record mrs = loc_Exact).
Proof.
  intros Hm He Hle. unfold shr_fexp, shr.
  change (shr_record_of_loc m loc_Exact)
    with {| shr_m := m; shr_r := false; shr_s := false |}.
  set (a := {| shr_m := m; shr_r := false; shr_s := false |}).
  assert (Hd : Zdigits2 m + e <= 8).
  { assert (Zdigits2 m <= 8 - e); [| lia].
    apply Zdigits2_bound; [assumption | lia |].
    replace (8 - e) with (8 + - e) by lia. rewrite Z.pow_add_r by lia.
    change (2 ^ 8) with 256.
    assert (0 < 2 ^ (- e)) by (apply Z.pow_pos_nonneg; lia). lia. }
  assert (Hf : fexp prec emax (Zdigits2 m + e) <= 0).
  { unfold fexp, emin, prec, emax. lia. }
  destruct (fexp prec emax (Zdigits2 m + e) - e) as [| p | p] eqn:En.
  - cbn [a shr_m loc_of_shr_record shr_r shr_s]. repeat split; lia.
  - destruct (iter_pos_shr_1 p a Hm) as [Em Ef].
    set (b := SpecFloat.iter_pos shr_1 p a) in *.
    cbn [a shr_m shr_r shr_s] in Em, Ef.
    set (e' := e + Z.pos p).
    assert (He' : e' <= 0) by (unfold e'; lia).
    assert (P : 0 < 2 ^ Z.pos p) by (apply Z.pow_pos_nonneg; lia).
    assert (Hsplit : 2 ^ (- e) = 2 ^ (- e') * 2 ^ Z.pos p).
    { rewrite <- Z.pow_add_r by lia. f_equal. unfold e'. lia. }
    assert (Hq : m / 2 ^ Z.pos p <= 255 * 2 ^ (- e')).
    { apply Z.div_le_upper_bound; [assumption |]. rewrite Hsplit in Hle. lia. }
    split; [assumption |]. rewrite Em. split.
    + split; [apply Z.div_pos; lia | assumption].
    + intros Eq.
      assert (Hmod : m mod 2 ^ Z.pos p = 0).
      { pose proof (Z.div_mod m (2 ^ Z.pos p) ltac:(lia)) as DM.
        pose proof (Z.mod_pos_bound m (2 ^ Z.pos p) P). rewrite Eq in DM.
        rewrite Hsplit in Hle. lia. }
      assert (Fl : shr_r b || shr_s b = false) by (apply Ef; split; [assumption | reflexivity]).
      apply orb_false_elim in Fl. destruct Fl as [Fr Fs].
      unfold loc_of_shr_record. destruct b as [bm br bs]. cbn in Fr, Fs. subst br bs. reflexivity.
  - cbn [a shr_m loc_of_shr_record shr_r shr_s]. repeat split; lia.
Qed.

Lemma round_nearest_even_bounds (m : Z) (l : location) :
  m <= round_nearest_even m l <= m + 1
  /\ (l = loc_Exact -> round_nearest_even m l = m).
Proof.
  unfold round_nearest_even. destruct l as [| []]; try destruct (Z.even m); split; try lia;
    try reflexivity; try discriminate.
Qed.

(** Rounding a non-negative value that is at most 255 to binary64 gives
    zero or a finite non-negative value that is at most 255. *)
Lemma binary_round_aux_le_255 (m e : Z) :
  0 <= m -> e <= 0 -> m <= 255 * 2 ^ (- e) ->
  match binary_round_aux prec emax false m e loc_Exact with
  | S754_zero s => s = false
  | S754_finite s m' e' => s = false /\ e' <= 0 /\ Z.pos m' <= 255 * 2 ^ (- e')
  | _ => False
  end.
Proof.
  intros Hm He Hle. unfold binary_round_aux.
  pose proof (shr_fexp_le_255 m e Hm He Hle) as S1.
  destruct (shr_fexp prec emax m e loc_Exact) as [mrs' e'].
  destruct S1 as (He' & [Hlo Hhi] & Hex).
  pose proof (round_nearest_even_bounds (shr_m mrs') (loc_of_shr_record mrs')) as [[Rlo Rhi] Rex].
  set (m1 := round_nearest_even (shr_m mrs') (loc_of_shr_record mrs')) in *.
  assert (H1 : m1 <= 255 * 2 ^ (- e')).
  { destruct (Z.eq_dec (shr_m mrs') (255 * 2 ^ (- e'))) as [Eq | Ne].
    - rewrite (Rex (Hex Eq)). lia.
    - lia. }
  pose proof (shr_fexp_le_255 m1 e' ltac:(lia) He' H1) as S2.
  destruct (shr_fexp prec emax m1 e' loc_Exact) as [mrs'' e''].
  destruct S2 as (He'' & [Hlo2 Hhi2] & _).
  destruct (shr_m mrs'') as [| mf | mf]; [reflexivity | | lia].
  replace (e'' <=? emax - prec) with true
    by (symmetry; apply Z.leb_le; unfold emax, prec; lia).
  repeat split; assumption.
Qed.

(** The double 255 is [255 * 2^45 * 2^-45]. *)
Lemma times_255_le_255 (m : positive) (e : Z) :
  e <= -52 -> Z.pos m <= 2 ^ (- e) ->
  match SF64mul (S754_finite false m e) (Prim2SF 255) with
  | S754_zero s => s = false
  | S754_finite s m' e' => s = false /\ e' <= 0 /\ Z.pos m' <= 255 * 2 ^ (- e')
  | _ => False
  end.
Proof.
  intros He Hm.
  change (Prim2SF 255) with (S754_finite false 8972014882652160 (-45)).
  unfold SF64mul, SFmul. cbn [xorb].
  apply binary_round_aux_le_255; [lia | lia |].
  rewrite Pos2Z.inj_mul.
  replace (- (e + -45)) with (- e + 45) by lia.
  rewrite Z.pow_add_r by lia.
  change (Z.pos 8972014882652160) with (255 * 2 ^ 45).
  assert (0 < 2 ^ 45) by reflexivity. nia.
Qed.

(** A double in [0,1] is a zero, or [m * 2^e] with [m <= 2^-e]. *)
Lemma in_unit_finite (v : float) :
  in_unit v = true ->
  (exists s, Prim2SF v = S754_zero s)
  \/ (exists m e, Prim2SF v = S754_finite false m e
                  /\ e <= -52 /\ Z.pos m <= 2 ^ (- e)).
Proof.
  unfold in_unit. rewrite andb_true_iff, !leb_spec. intros [H0 H1].
  pose proof (Prim2SF_valid v) as V.
  change (Prim2SF 0) with (S754_zero false) in H0.
  change (Prim2SF 1) with (S754_finite false 4503599627370496 (-52)) in H1.
  destruct (Prim2SF v) as [s | s | | s m e].
  - left. now exists s.
  - destruct s; discriminate.
  - discriminate.
  - right. exists m, e. destruct s; [discriminate |]. split; [reflexivity |].
    unfold SFleb, SFcompare in H1.
    destruct (Z.compare_spec e (-52)) as [E | L | G].
    + split; [lia |]. subst e. change (2 ^ (- -52)) with 4503599627370496.
      change (Z.pos m <= 4503599627370496) with (Pos.le m 4503599627370496).
      unfold Pos.le, Pos.compare.
      destruct (Pos.compare_cont Eq m 4503599627370496); discriminate.
    + split; [lia |].
      cbn [SpecFloat.valid_binary] in V. unfold bounded, canonical_mantissa in V.
      apply andb_prop in V. destruct V as [C _].
      apply Z.eqb_eq in C.
      pose proof (digits2_pos_upper m) as U.
      assert (D : Z.pos (digits2_pos m) <= 53).
      { unfold fexp, emin, prec, emax in C. lia. }
      assert (2 ^ Z.pos (digits2_pos m) <= 2 ^ (- e)); [| lia].
      apply Z.pow_le_mono_r; lia.
    + discriminate.
Qed.

(** [Math.round] of a finite non-negative double that is at most 255. *)
Lemma round_le_255 (m : positive) (e : Z) :
  e <= 0 -> Z.pos m <= 255 * 2 ^ (- e) ->
  0 <= (if 0 <=? e then Z.pos m * 2 ^ e
        else (2 * Z.pos m + 2 ^ (- e)) / 2 ^ (- e + 1)) <= 255.
Proof.
  intros He Hm. destruct (Z.leb_spec 0 e) as [H0 | H0].
  - replace e with 0 in * by lia. change (2 ^ (- 0)) with 1 in Hm.
    change (2 ^ 0) with 1. lia.
  - assert (P : 0 < 2 ^ (- e)) by (apply Z.pow_pos_nonneg; lia).
    assert (E : 2 ^ (- e + 1) = 2 * 2 ^ (- e)) by (rewrite Z.pow_add_r by lia; change (2 ^ 1) with 2; lia).
    rewrite E. split.
    + apply Z.div_pos; lia.
    + assert ((2 * Z.pos m + 2 ^ (- e)) / (2 * 2 ^ (- e)) < 256); [| lia].
      apply Z.div_lt_upper_bound; nia.
Qed.

(** The level of a channel in [0,1] is a whole number from 0 to 255. *)
Lemma round_channel_byte (v : float) :
  in_unit v = true ->
  exists n, Js.Math_round (v * 255)%float = Js.Whole n /\ 0 <= n <= 255.
Proof.
  intros Hv. unfold Js.Math_round. rewrite mul_spec.
  destruct (in_unit_finite v Hv) as [[s E] | (m & e & E & He & Hm)]; rewrite E.
  - change (Prim2SF 255) with (S754_finite false 8972014882652160 (-45)).
    cbn. exists 0. split; [reflexivity | lia].
  - pose proof (times_255_le_255 m e He Hm) as T.
    destruct (SF64mul (S754_finite false m e) (Prim2SF 255)) as [s | s | | s m' e'].
    + exists 0. split; [reflexivity | lia].
    + contradiction.
    + contradiction.
    + destruct T as (-> & He' & Hm').
      eexists. split; [reflexivity |]. apply round_le_255; assumption.
Qed.

Local Close Scope Z_scope.

Lemma toHex_channel (v : float) :
  in_unit v = true ->
  exists n, Js.Math_round (v * 255)%float = Js.Whole n /\ (0 <= n <= 255)%Z
            /\ toHex v = two_hex_digits n.
Proof.
  intros Hv. destruct (round_channel_byte v Hv) as (n & E & Hn).
  exists n. split; [exact E |]. split; [exact Hn |].
  unfold toHex. rewrite E. apply (pad_hex_byte n Hn).
Qed.

(** C4.  For a colour whose three channels lie in [0,1], [rgbToHex] is
    ["#"] followed by the two-digit, zero-padded hexadecimal writing of
    [round(channel * 255)] for red, green and blue, seven characters in
    all; for an absent colour it is ["#000000"].  The channels are doubles,
    the product is the double product, and each rounded product is a whole
    number from 0 to 255. *)
Theorem rgbToHex_spec (c : RGB) :
  in_unit (r c) = true -> in_unit (g c) = true -> in_unit (b c) = true ->
  exists nr ng nb : Z,
    Js.Math_round (r c * 255)%float = Js.Whole nr
    /\ Js.Math_round (g c * 255)%float = Js.Whole ng
    /\ Js.Math_round (b c * 255)%float = Js.Whole nb
    /\ (0 <= nr <= 255)%Z /\ (0 <= ng <= 255)%Z /\ (0 <= nb <= 255)%Z
    /\ rgbToHex (Some c)
       = "#" +:+ two_hex_digits nr +:+ two_hex_digits ng +:+ two_hex_digits nb
    /\ String.length (rgbToHex (Some c)) = 7%nat
    /\ rgbToHex None = "#000000".
Proof.
  intros Hr Hg Hb.
  destruct (toHex_channel (r c) Hr) as (nr & Er & Hnr & Tr).
  destruct (toHex_channel (g c) Hg) as (ng & Eg & Hng & Tg).
  destruct (toHex_channel (b c) Hb) as (nb & Eb & Hnb & Tb).
  exists nr, ng, nb.
  assert (E : rgbToHex (Some c)
              = "#" +:+ two_hex_digits nr +:+ two_hex_digits ng +:+ two_hex_digits nb).
  { unfold rgbToHex. now rewrite Tr, Tg, Tb. }
  repeat (split; [assumption |]).
  split; [rewrite E; reflexivity | reflexivity].
Qed.

Lemma rgbToHex_spec_witness :
  rgbToHex (Some (mkRGB 1 0x1.3333333333333p-2 0)) = "#ff4d00"
  /\ String.length (rgbToHex (Some (mkRGB 1 0x1.3333333333333p-2 0))) = 7%nat.
Proof.
  destruct (rgbToHex_spec (mkRGB 1 0x1.3333333333333p-2 0))
    as (nr & ng & nb & Er & Eg & Eb & _ & _ & _ & E & L & _);
    [reflexivity | reflexivity | reflexivity |].
  split; [| exact L].
  vm_compute in Er, Eg, Eb.
  injection Er as <-. injection Eg as <-. injection Eb as <-.
  rewrite E. reflexivity.
Defined.

End ColorCodecFacts.

(* ------------------------------------------------------------------ *)
(** ** PurposeClassifier *)
(* ------------------------------------------------------------------ *)

Section PurposeClassifierFacts.

Import PurposeClassifier.

Lemma inferElementPurpose_by_rules (node_name : option string) (node_type : string) :
  inferElementPurpose node_name node_type = by_rules node_name node_type.
Proof.
  unfold inferElementPurpose, by_rules, rules, first_match.
  repeat match goal with
         | |- context [if ?c then _ else _] => destruct c
         end; reflexivity.
Qed.

(** C3.  [inferElementPurpose] reads only the name and the type of the
    node and is the first-match evaluation of the ordered rule list
    [rules]; a node of type TEXT is a ["Text element"] whatever its name,
    in both copies of the function, so the TEXT node named
    ["Login Button"] is a ["Text element"]. *)
Theorem inferPurpose_text_first :
  (forall node_name node_type,
      inferElementPurpose node_name node_type = by_rules node_name node_type)
  /\ (exists first others,
         rules = first :: others
         /\ snd first = "Text element"
         /\ forall name type, fst first name type = String.eqb type "TEXT")
  /\ (forall node_name, inferElementPurpose node_name "TEXT" = "Text element")
  /\ (forall node_name, inferElementPurpose_spec node_name "TEXT" = "Text element")
  /\ inferElementPurpose (Some "Login Button") "TEXT" = "Text element"
  /\ inferElementPurpose (Some "Login Button") "RECTANGLE" = "Button".
Proof.
  split; [exact inferElementPurpose_by_rules|].
  split; [eexists _, _; split; [reflexivity|]; split; reflexivity|].
  repeat split; try reflexivity.
Qed.

End PurposeClassifierFacts.

(* ------------------------------------------------------------------ *)
(** ** ExportOrchestrator *)
(* ------------------------------------------------------------------ *)

Section ExportOrchestratorFacts.

Import ExportOrchestrator.

(** [find] with the predicate [!success] can only return a falsy value:
    the element found, or [undefined]. *)
Lemma find_failed_is_falsy (ds : list JsValue) :
  truthy (Array_find (fun success => negb (truthy success)) ds) = false.
Proof.
  induction ds as [|d ds IH]; simpl.
  - reflexivity.
  - destruct (truthy d) eqn:E; simpl; [exact IH | exact E].
Qed.

(** Hence the negation the handler takes is always [true]. *)
Lemma saveSuccess_always (ds : list JsValue) : saveSuccess ds = true.
Proof. unfold saveSuccess. now rewrite find_failed_is_falsy. Qed.

Lemma answer_never_failed (f r : list JsValue) : answer f r <> "Failed".
Proof.
  unfold answer. rewrite saveSuccess_always. discriminate.
Qed.

Lemma download_figma_images_never_failed
    (getImageFills : list ExportRequest -> list JsValue)
    (getImages : list RenderRequest -> list JsValue)
    (nodes : list ExportRequest) :
  download_figma_images getImageFills getImages nodes <> "Failed".
Proof. apply answer_never_failed. Qed.

(** C1 (the code departs from it).  Two fill items saved and one render
    item failed: one outcome is a failure, three outcomes are merged in
    the order fills then renders, and yet the handler answers with the
    success text. *)
Theorem two_fills_saved_one_render_failed :
  downloads [JsBool true; JsBool true] [JsBool false]
  = [JsBool true; JsBool true; JsBool false]
  /\ every_item_succeeded (downloads [JsBool true; JsBool true] [JsBool false]) = false
  /\ saveSuccess (downloads [JsBool true; JsBool true] [JsBool false]) = true
  /\ answer [JsBool true; JsBool true] [JsBool false]
     = "Success, 3 images downloaded: true, true, false".
Proof. repeat split. Qed.

(** The same with the file paths the service may report instead, the
    empty path standing for a failure. *)
Example two_paths_saved_one_render_failed :
  answer [JsString "a.png"; JsString "b.png"] [JsString ""]
  = "Success, 3 images downloaded: a.png, b.png, ".
Proof. reflexivity. Qed.

Lemma forwardedNodeId_dash (id : string) :
  Js.includes id "-" = true -> first_dash_replaced id (forwardedNodeId id).
Proof.
  intros H. unfold forwardedNodeId. rewrite H.
  destruct (replace_char_first "-"%char ":" id H) as (pre & post & E & Hpre & Hrep).
  exists pre, post. auto.
Qed.

Lemma forwardedNodeId_no_dash (id : string) :
  Js.includes id "-" = false -> forwardedNodeId id = id.
Proof. intros H. unfold forwardedNodeId. now rewrite H. Qed.

(** C10.  In [src/mcp.ts] the requests without a (truthy) [imageRef]
    are forwarded to [getImages] in their order, each with its file name,
    and with its [nodeId] changed at the first ["-"] only, which becomes
    [":"] (a [nodeId] without ["-"] is unchanged); the requests with an
    [imageRef] are forwarded to [getImageFills] as they are. *)
Theorem render_nodeId_first_dash (nodes : list ExportRequest) :
  Forall2
    (fun req fwd =>
       render_fileName fwd = fileName req
       /\ (if Js.includes (nodeId req) "-"
           then first_dash_replaced (nodeId req) (render_nodeId fwd)
           else render_nodeId fwd = nodeId req))
    (List.filter (fun req => negb (Js.truthy_str (imageRef req))) nodes)
    (renderRequests nodes)
  /\ imageFills nodes = List.filter (fun req => Js.truthy_str (imageRef req)) nodes
  /\ Forall (fun req => In req nodes /\ Js.truthy_str (imageRef req) = true) (imageFills nodes).
Proof.
  split; [|split].
  - unfold renderRequests.
    induction (List.filter (fun req => negb (Js.truthy_str (imageRef req))) nodes)
      as [|req l IH]; simpl; constructor; [|exact IH].
    simpl. split; [reflexivity|].
    destruct (Js.includes (nodeId req) "-") eqn:E.
    + now apply forwardedNodeId_dash.
    + now apply forwardedNodeId_no_dash.
  - reflexivity.
  - apply List.Forall_forall. intros req Hin.
    apply List.filter_In in Hin. exact Hin.
Qed.

Example render_requests_example :
  renderRequests [ mkRequest "12-34-56" None "icon.svg";
                   mkRequest "1-2" (Some "abc") "bg.png";
                   mkRequest "7:8" (Some "") "pic.png" ]
  = [ mkRender "12:34-56" "icon.svg" svg; mkRender "7:8" "pic.png" png ]
  /\ imageFills [ mkRequest "12-34-56" None "icon.svg";
                  mkRequest "1-2" (Some "abc") "bg.png";
                  mkRequest "7:8" (Some "") "pic.png" ]
     = [ mkRequest "1-2" (Some "abc") "bg.png" ].
Proof. split; reflexivity. Qed.

(** The sibling binding module hands the [nodeId] on as it is. *)
Example render_requests_sibling_example :
  renderRequests_sibling [ mkRequest "12-34-56" None "icon.svg" ]
  = [ mkRender "12-34-56" "icon.svg" svg ].
Proof. reflexivity. Qed.

End ExportOrchestratorFacts.

(* ------------------------------------------------------------------ *)
(** ** DocumentAssembler: the complexity label *)
(* ------------------------------------------------------------------ *)

Section ComplexityFacts.

Import DescriptorEngine DocumentAssembler.

(** C6, as amended.  The label is decided by the number of top-level
    nodes of the fetched file, [nodes.length]: it is ["High"] exactly when
    that number is above 5, ["Medium"] exactly when it is 3, 4 or 5, and
    ["Low"] exactly when it is at most 2; the line of the summary prints
    the label with that same number. *)
Theorem complexityLevel_by_length (nodes : list DesignNode) :
  (complexityLevel nodes = "High" <-> (5 < List.length nodes)%nat)
  /\ (complexityLevel nodes = "Medium" <-> (2 < List.length nodes <= 5)%nat)
  /\ (complexityLevel nodes = "Low" <-> (List.length nodes <= 2)%nat)
  /\ complexityLine nodes
     = "- **Complexity Level**: " +:+ complexityLevel nodes +:+ " ("
       +:+ nat_toString (List.length nodes) +:+ " total elements)".
Proof.
  split; [|split; [|split]]; [ | | | reflexivity ];
    unfold complexityLevel;
    destruct (Nat.ltb_spec 5 (List.length nodes));
    destruct (Nat.ltb_spec 2 (List.length nodes));
    split; intros; try discriminate; try lia; try reflexivity.
Qed.

(** C6 as first stated fails: the analysed tree has seven nodes, more
    than five, and the label is ["Low"], because the fetched file has one
    top-level node. *)
Lemma complexity_ignores_descendants :
  countNodes Samples.seven_nodes = 7%nat
  /\ List.length [Samples.seven_nodes] = 1%nat
  /\ complexityLevel [Samples.seven_nodes] = "Low"
  /\ complexityLine [Samples.seven_nodes]
     = "- **Complexity Level**: Low (1 total elements)".
Proof. repeat split. Qed.

End ComplexityFacts.

(* ------------------------------------------------------------------ *)
(** ** DescriptorEngine *)
(* ------------------------------------------------------------------ *)

Section DescriptorEngineFacts.

Import ColorCodec DescriptorEngine.

(** Induction on a tree, the property being available for every child. *)
Lemma DesignNode_children_ind (P : DesignNode -> Prop) :
  (forall n, Forall P (children n) -> P n) -> forall n, P n.
Proof.
  intros step. fix IH 1. intros n. apply step.
  destruct n as [? ? ? ? ? ? ? ? ? ? ? ? ? ? ? ? ? ? kids]. simpl.
  induction kids as [|k kids IHkids]; constructor; [apply IH | exact IHkids].
Qed.

(** *** Pieces and tags *)

Lemma tag_eqb_eq (a b : tag) : tag_eqb a b = true <-> a = b.
Proof. split; [destruct a, b; simpl; congruence | intros ->; destruct b; reflexivity]. Qed.

Lemma pieces_of_app (t : tag) (a b : list piece) :
  pieces_of t (a ++ b) = pieces_of t a ++ pieces_of t b.
Proof. apply List.filter_app. Qed.

Lemma emits_pieces_of (t : tag) (ps : list piece) :
  emits t ps = match pieces_of t ps with [] => false | _ :: _ => true end.
Proof.
  induction ps as [|p ps IH]; simpl; [reflexivity|].
  destruct (tag_eqb (fst p) t); simpl; [reflexivity | exact IH].
Qed.

Lemma emits_app (t : tag) (a b : list piece) :
  emits t (a ++ b) = emits t a || emits t b.
Proof. apply List.existsb_app. Qed.

(** A list whose tags all come from [ts] has no piece of a tag outside [ts]. *)
Lemma pieces_of_outside (t : tag) (ts : list tag) (ps : list piece) :
  Forall (fun p => In (fst p) ts) ps ->
  existsb (fun u => tag_eqb u t) ts = false ->
  pieces_of t ps = [].
Proof.
  intros Hall Hout. induction Hall as [|p ps Hp _ IH]; simpl; [reflexivity|].
  destruct (tag_eqb (fst p) t) eqn:E; [|exact IH].
  apply tag_eqb_eq in E. subst t.
  assert (existsb (fun u => tag_eqb u (fst p)) ts = true) as Hin.
  { apply List.existsb_exists. exists (fst p). split; [exact Hp | now apply tag_eqb_eq]. }
  congruence.
Qed.

Lemma emits_outside (t : tag) (ts : list tag) (ps : list piece) :
  Forall (fun p => In (fst p) ts) ps ->
  existsb (fun u => tag_eqb u t) ts = false ->
  emits t ps = false.
Proof.
  intros Hall Hout. rewrite emits_pieces_of.
  now rewrite (pieces_of_outside t ts ps Hall Hout).
Qed.

(** *** [forEach] *)

Lemma forEach_Forall {A : Type} (P : piece -> Prop) (body : A -> nat -> list piece)
    (xs : list A) (k : nat) :
  (forall x i, Forall P (body x i)) -> Forall P (forEach body xs k).
Proof.
  intros Hbody. revert k.
  induction xs as [|x xs IH]; intros k; simpl; [constructor|].
  apply List.Forall_app. split; [apply Hbody | apply IH].
Qed.

Lemma forEach_In {A : Type} (body : A -> nat -> list piece) (xs : list A)
    (k i : nat) (x : A) (p : piece) :
  xs !! i = Some x -> In p (body x (k + i)) -> In p (forEach body xs k).
Proof.
  revert k i. induction xs as [|y xs IH]; intros k i Hx Hp; [discriminate|].
  simpl. apply List.in_or_app. destruct i as [|i]; simpl in Hx.
  - injection Hx as ->. left. now rewrite Nat.add_0_r in Hp.
  - right. apply (IH (S k) i Hx). now rewrite Nat.add_succ_comm.
Qed.

(** A loop that appends [sep] after every member but the last one builds
    the members separated by [sep]. *)
Lemma forEach_separated {A : Type} (f : A -> list piece) (sep : piece)
    (len : nat) (xs : list A) (k : nat) :
  (k + List.length xs = len)%nat ->
  forEach (fun x index => f x ++ (if (index <? len - 1)%nat then [sep] else [])) xs k
  = separated [sep] (List.map f xs).
Proof.
  revert k. induction xs as [|x xs IH]; intros k Hlen; [reflexivity|].
  destruct xs as [|y xs].
  - simpl in *. replace (k <? len - 1)%nat with false
      by (symmetry; apply Nat.ltb_ge; lia).
    now rewrite !List.app_nil_r.
  - change (forEach ?b (x :: ?l) k) with (b x k ++ forEach b l (S k)).
    cbv beta. rewrite (IH (S k)) by (simpl in *; lia).
    replace (k <? len - 1)%nat with true
      by (symmetry; apply Nat.ltb_lt; simpl in *; lia).
    change (separated [sep] (List.map f (x :: y :: xs)))
      with (f x ++ [sep] ++ separated [sep] (List.map f (y :: xs))).
    now rewrite <- List.app_assoc.
Qed.


(** *** The tags of each part of a block *)

Ltac tags_of_section :=
  repeat first
    [ apply List.Forall_nil
    | apply List.Forall_cons; [simpl; tauto|]
    | apply List.Forall_app; split
    | apply forEach_Forall; intros
    | match goal with
      | |- Forall _ (if ?c then _ else _) => destruct c
      | |- Forall _ (match ?o with _ => _ end) => destruct o
      end ].

Section Tags.

Variable Number_toString : Q -> string.
Variables (n : DesignNode) (level : nat).

Lemma identification_tags :
  Forall (fun p => In (fst p) [TagIdentTitle; TagName; TagType; TagPurpose])
         (identification n level).
Proof. unfold identification. tags_of_section. Qed.

Lemma geometry_tags :
  Forall (fun p => In (fst p) [TagGeomTitle; TagPosition; TagDimensions; TagAlignment;
                               TagGrowth; TagPadding; TagItemSpacing; TagGeomEnd])
         (geometry Number_toString n level).
Proof. unfold geometry. tags_of_section. Qed.

Lemma colors_tags :
  Forall (fun p => In (fst p) [TagColorsTitle; TagFill]) (colors n level).
Proof. unfold colors, fill_line. tags_of_section. Qed.

Lemma typography_tags :
  Forall (fun p => In (fst p) [TagTypographyTitle; TagFont; TagSize; TagWeight;
                               TagHAlign; TagVAlign; TagLineHeight])
         (typography Number_toString n level).
Proof. unfold typography. tags_of_section. Qed.

Lemma borders_tags :
  Forall (fun p => In (fst p) [TagBordersTitle; TagBorder; TagCornerRadius])
         (borders Number_toString n level).
Proof. unfold borders, border_line. tags_of_section. Qed.

Lemma effects_tags :
  Forall (fun p => In (fst p) [TagEffectsTitle; TagShadow])
         (effects_lines Number_toString n level).
Proof. unfold effects_lines, shadow_line. tags_of_section. Qed.

Lemma content_tags :
  Forall (fun p => In (fst p) [TagContentTitle; TagText]) (content n level).
Proof. unfold content. tags_of_section. Qed.


(** A line of the geometry part can only come from [geometry]. *)
Lemma nodeBlock_emits_geometry (t : tag) :
  In t [TagAlignment; TagGrowth; TagPadding; TagItemSpacing] ->
  emits t (nodeBlock Number_toString n level)
  = emits t (geometry Number_toString n level).
Proof.
  intros Ht. unfold nodeBlock. rewrite !emits_app.
  assert (Hsplit : t = TagAlignment \/ t = TagGrowth \/ t = TagPadding \/ t = TagItemSpacing)
    by (simpl in Ht; intuition congruence).
  rewrite (emits_outside t _ _ identification_tags)
    by (destruct Hsplit as [->|[->|[->| ->]]]; reflexivity).
  rewrite (emits_outside t _ _ colors_tags)
    by (destruct Hsplit as [->|[->|[->| ->]]]; reflexivity).
  rewrite (emits_outside t _ _ typography_tags)
    by (destruct Hsplit as [->|[->|[->| ->]]]; reflexivity).
  rewrite (emits_outside t _ _ borders_tags)
    by (destruct Hsplit as [->|[->|[->| ->]]]; reflexivity).
  rewrite (emits_outside t _ _ effects_tags)
    by (destruct Hsplit as [->|[->|[->| ->]]]; reflexivity).
  rewrite (emits_outside t _ _ content_tags)
    by (destruct Hsplit as [->|[->|[->| ->]]]; reflexivity).
  destruct Hsplit as [->|[->|[->| ->]]]; simpl;
    now rewrite ?orb_false_r.
Qed.

End Tags.

(** *** The walk *)

Section Walk.

Variable Number_toString : Q -> string.

Lemma analyzeNode_eq (n : DesignNode) (level : nat) :
  analyzeNode Number_toString n level
  = nodeBlock Number_toString n level
    ++ match children n with
       | [] => []
       | _ :: _ =>
           childrenTitle n level
           :: forEach
                (fun child index =>
                   analyzeNode Number_toString child (level + 1)
                   ++ (if (index <? List.length (children n) - 1)%nat
                       then [ divider level ]
                       else []))
                (children n) 0
       end.
Proof. destruct n; reflexivity. Qed.

(** The children part: a count title, then the descriptions of the
    children separated by the divider. *)
Lemma analyzeNode_children (n : DesignNode) (level : nat) :
  analyzeNode Number_toString n level
  = nodeBlock Number_toString n level
    ++ match children n with
       | [] => []
       | _ :: _ =>
           childrenTitle n level
           :: separated [divider level]
                (List.map (fun child => analyzeNode Number_toString child (level + 1))
                          (children n))
       end.
Proof.
  rewrite analyzeNode_eq. f_equal.
  destruct (children n) as [|k kids] eqn:E; [reflexivity|].
  f_equal. now apply forEach_separated.
Qed.


Lemma countNodes_eq (n : DesignNode) :
  countNodes n = S (list_sum (List.map countNodes (children n))).
Proof. destruct n; reflexivity. Qed.



(** One node, one block: the description of a leaf is its block. *)
Lemma analyzeNode_leaf (n : DesignNode) (level : nat) :
  children n = [] ->
  analyzeNode Number_toString n level = nodeBlock Number_toString n level.
Proof. intros E. rewrite analyzeNode_eq, E. apply List.app_nil_r. Qed.

End Walk.


(** *** The geometry part *)

Lemma truthy_num_spec (o : option Q) :
  Js.truthy_num o = true <-> exists q, o = Some q /\ ~ (q == 0)%Q.
Proof.
  destruct o as [q|]; simpl.
  - rewrite negb_true_iff. split.
    + intros H. exists q. split; [reflexivity|].
      intros E. apply Qeq_bool_iff in E. congruence.
    + intros (q' & [= <-] & Hq). apply not_true_is_false.
      intros E. apply Hq. now apply Qeq_bool_iff.
  - split; [discriminate | intros (q & [=] & _)].
Qed.

Lemma truthy_str_spec (o : option string) :
  Js.truthy_str o = true <-> exists s, o = Some s /\ s <> EmptyString.
Proof.
  destruct o as [[|c s]|]; simpl.
  - split; [discriminate | intros (s & [= <-] & H); congruence].
  - split; [intros _; eexists; split; [reflexivity | discriminate] | reflexivity].
  - split; [discriminate | intros (s & [=] & _)].
Qed.

(** C5, as amended.  The four layout lines belong to the geometry part,
    which is written only for a node that has a bounding box or a size.
    For such a node the block has the alignment line exactly when the
    alignment is present and not empty, the growth line exactly when the
    growth factor is defined, the padding line exactly when one of the
    four paddings is present and not zero, and the item-spacing line
    exactly when the item spacing is defined; for a node with neither a
    bounding box nor a size the block has none of the four. *)
Theorem layout_lines_gated (Number_toString : Q -> string) (n : DesignNode) (level : nat) :
  emits TagAlignment (nodeBlock Number_toString n level)
  = (Js.truthy_obj (absoluteBoundingBox n) || Js.truthy_obj (size n))
    && Js.truthy_str (layoutAlign n)
  /\ emits TagGrowth (nodeBlock Number_toString n level)
     = (Js.truthy_obj (absoluteBoundingBox n) || Js.truthy_obj (size n))
       && Js.truthy_obj (layoutGrow n)
  /\ emits TagPadding (nodeBlock Number_toString n level)
     = (Js.truthy_obj (absoluteBoundingBox n) || Js.truthy_obj (size n))
       && (Js.truthy_num (paddingLeft n) || Js.truthy_num (paddingTop n)
           || Js.truthy_num (paddingRight n) || Js.truthy_num (paddingBottom n))
  /\ emits TagItemSpacing (nodeBlock Number_toString n level)
     = (Js.truthy_obj (absoluteBoundingBox n) || Js.truthy_obj (size n))
       && Js.truthy_obj (itemSpacing n)
  /\ (forall o, Js.truthy_num o = true <-> exists q, o = Some q /\ ~ (q == 0)%Q)
  /\ (forall o, Js.truthy_str o = true <-> exists s, o = Some s /\ s <> EmptyString).
Proof.
  repeat split; try (apply truthy_num_spec); try (apply truthy_str_spec);
    (rewrite nodeBlock_emits_geometry by (simpl; tauto));
    unfold geometry;
    destruct (Js.truthy_obj (absoluteBoundingBox n) || Js.truthy_obj (size n));
    try reflexivity;
    rewrite !emits_app;
    destruct (absoluteBoundingBox n), (Js.truthy_str (layoutAlign n)), (layoutGrow n),
      (Js.truthy_num (paddingLeft n) || Js.truthy_num (paddingTop n)
       || Js.truthy_num (paddingRight n) || Js.truthy_num (paddingBottom n)),
      (itemSpacing n);
    reflexivity.
Qed.

(** C5 as first stated fails: the row has an alignment, a growth factor,
    paddings and an item spacing, and its block has none of the lines,
    because it has neither a bounding box nor a size; and a boxed row
    whose alignment is the empty string has no alignment line. *)
Lemma layout_lines_need_a_box :
  layoutAlign Samples.row_without_box = Some "STRETCH"
  /\ layoutGrow Samples.row_without_box = Some 1%Q
  /\ paddingLeft Samples.row_without_box = Some 8%Q
  /\ itemSpacing Samples.row_without_box = Some 4%Q
  /\ emits TagAlignment (nodeBlock whole_toString Samples.row_without_box 0) = false
  /\ emits TagGrowth (nodeBlock whole_toString Samples.row_without_box 0) = false
  /\ emits TagPadding (nodeBlock whole_toString Samples.row_without_box 0) = false
  /\ emits TagItemSpacing (nodeBlock whole_toString Samples.row_without_box 0) = false
/\ layoutAlign Samples.row_empty_alignment = Some EmptyString
/\ emits TagAlignment (nodeBlock whole_toString Samples.row_empty_alignment 0) = false.
Proof. repeat split. Qed.

Example layout_lines_with_a_box :
  List.map fst (geometry whole_toString Samples.row_with_box 0)
  = [ TagGeomTitle; TagPosition; TagDimensions; TagAlignment; TagGrowth;
      TagPadding; TagItemSpacing; TagGeomEnd ].
Proof. reflexivity. Qed.

(** *** The Colors list *)

Lemma nodeBlock_in_analyzeNode (Number_toString : Q -> string) (n : DesignNode)
    (level : nat) (p : piece) :
  In p (nodeBlock Number_toString n level) -> In p (analyzeNode Number_toString n level).
Proof. intros H. rewrite analyzeNode_eq. apply List.in_or_app. now left. Qed.

Lemma colors_in_nodeBlock (Number_toString : Q -> string) (n : DesignNode)
    (level : nat) (p : piece) :
  In p (colors n level) -> In p (nodeBlock Number_toString n level).
Proof.
  intros H. unfold nodeBlock.
  apply List.in_or_app; right. apply List.in_or_app; right.
  apply List.in_or_app; right. apply List.in_or_app; right.
  apply List.in_or_app; now left.
Qed.

Lemma fill_line_falsy_opacity (indent : string) (fill : Paint) (index : nat) :
  paint_type fill = "SOLID" ->
  Js.or_double (paint_opacity fill) 1 = 1%float ->
  fill_line indent fill index
  = [ (TagFill, indent +:+ "- **Fill " +:+ nat_toString (index + 1) +:+ "**: "
                  +:+ rgbToHex (paint_color fill) +:+ " (Opacity: 100%)" +:+ Js.nl) ].
Proof.
  intros Htype E. unfold fill_line. rewrite Htype. simpl String.eqb. cbv iota.
  rewrite E. reflexivity.
Qed.

(** C9.  A SOLID entry of [fills] whose opacity is present and equal
    to 0 (either zero of the machine), or absent, is reported in the
    Colors list with ["Opacity: 100%"]: the line of the entry, numbered by
    its position, is part of the description of the node. *)
Theorem zero_opacity_reported_full (Number_toString : Q -> string)
    (n : DesignNode) (level i : nat) (fill : Paint) :
  fills n !! i = Some fill ->
  paint_type fill = "SOLID" ->
  (exists o, paint_opacity fill = Some o /\ (o =? 0)%float = true)
  \/ paint_opacity fill = None ->
  fill_line (Js.repeat "  " level) fill i
  = [ (TagFill, Js.repeat "  " level +:+ "- **Fill " +:+ nat_toString (i + 1) +:+ "**: "
                  +:+ rgbToHex (paint_color fill) +:+ " (Opacity: 100%)" +:+ Js.nl) ]
  /\ In (TagFill, Js.repeat "  " level +:+ "- **Fill " +:+ nat_toString (i + 1) +:+ "**: "
                    +:+ rgbToHex (paint_color fill) +:+ " (Opacity: 100%)" +:+ Js.nl)
        (analyzeNode Number_toString n level).
Proof.
  intros Hfill Htype Hzero.
  assert (Hfalsy : Js.or_double (paint_opacity fill) 1 = 1%float).
  { destruct Hzero as [(o & -> & Ho) | ->]; [|reflexivity].
    unfold Js.or_double, Js.truthy_double. now rewrite Ho. }
  pose proof (fill_line_falsy_opacity (Js.repeat "  " level) fill i Htype Hfalsy) as Hline.
  split; [exact Hline|].
  apply nodeBlock_in_analyzeNode, colors_in_nodeBlock. unfold colors.
  destruct (fills n) as [|f0 fs] eqn:E; [discriminate|].
  right. apply (forEach_In _ _ 0 i fill); [exact Hfill|].
  simpl Nat.add. rewrite Hline. now left.
Qed.

Lemma zero_opacity_reported_full_witness :
  In (TagFill, "- **Fill 1**: #ffffff (Opacity: 100%)" +:+ Js.nl)
     (analyzeNode whole_toString Samples.login_screen 0).
Proof.
  refine (proj2 (zero_opacity_reported_full whole_toString Samples.login_screen 0 0
                   (mkPaint "SOLID" (Some (mkRGB 1 1 1)) (Some 0%float)) _ _ _)).
  - reflexivity.
  - reflexivity.
  - left. exists 0%float. split; reflexivity.
Defined.

(** *** Determinism *)

Lemma render_app (ps qs : list piece) : render (ps ++ qs) = render ps +:+ render qs.
Proof.
  induction ps as [|p ps IH]; simpl; [reflexivity|].
  now rewrite IH, append_assoc.
Qed.

(** The loop over the children leaves the world as it found it and
    appends what the pure loop appends. *)
Lemma forEachChild_run (Number_toString : Q -> string) (count level : nat)
    (kids : list DesignNode) :
  Forall (fun child =>
            forall lvl w,
              Runtime.analyzeNode Number_toString child lvl w
              = (render (analyzeNode Number_toString child lvl), w)) kids ->
  forall (index : nat) (description : string) (w : Runtime.World),
    Runtime.forEachChild
      (fun child => Runtime.analyzeNode Number_toString child (level + 1))
      count level kids index description w
    = (description
       +:+ render (forEach
                     (fun child index =>
                        analyzeNode Number_toString child (level + 1)
                        ++ (if (index <? count - 1)%nat then [ divider level ] else []))
                     kids index),
       w).
Proof.
  induction 1 as [|child rest Hchild _ IH]; intros index description w.
  - simpl. unfold Runtime.ret. now rewrite append_empty_r.
  - cbn [Runtime.forEachChild forEach]. unfold Runtime.bind.
    rewrite Hchild.
    change (Runtime.forEachChild
              (fun child0 => Runtime.analyzeNode Number_toString child0 (level + 1))
              count level rest (S index)
              (if (index <? count - 1)%nat
               then (description +:+ render (analyzeNode Number_toString child (level + 1)))
                    +:+ snd (divider level)
               else description +:+ render (analyzeNode Number_toString child (level + 1)))
              w
            = (description
               +:+ render
                     ((analyzeNode Number_toString child (level + 1)
                       ++ (if (index <? count - 1)%nat then [ divider level ] else []))
                      ++ forEach
                           (fun child0 index0 =>
                              analyzeNode Number_toString child0 (level + 1)
                              ++ (if (index0 <? count - 1)%nat
                                  then [ divider level ] else []))
                           rest (S index)),
               w)).
    rewrite IH, !render_app. f_equal.
    destruct (index <? count - 1)%nat; cbn [render fold_right snd];
      rewrite ?append_empty_r, ?append_assoc; reflexivity.
Qed.

(** Run in any world, [analyzeNode] returns the text of the pure walk and
    the world unchanged. *)
Lemma analyzeNode_run (Number_toString : Q -> string) (n : DesignNode) :
  forall (level : nat) (w : Runtime.World),
    Runtime.analyzeNode Number_toString n level w
    = (render (analyzeNode Number_toString n level), w).
Proof.
  induction n as [n IH] using DesignNode_children_ind. intros level w.
  rewrite analyzeNode_eq, render_app.
  destruct n as [? ? ? ? ? ? ? ? ? ? ? ? ? ? ? ? ? ? kids].
  cbn [Runtime.analyzeNode children] in *.
  destruct kids as [|k kids]; [unfold Runtime.ret; now rewrite append_empty_r|].
  rewrite (forEachChild_run Number_toString _ level _ IH).
  cbn [render fold_right]. now rewrite append_assoc.
Qed.


(** The file context counts through its bindings only: two tables of
    global variables with the same bindings give the same text. *)
Lemma describe_same_bindings (Number_toString : Q -> string) (node : DesignNode)
    (file_name : string) (lastModified : option string) (vars1 vars2 : gmap string string) :
  (forall k, vars1 !! k = vars2 !! k) ->
  generateDetailedVisualDescription Number_toString node
    (mkFile file_name lastModified (Some vars1))
  = generateDetailedVisualDescription Number_toString node
      (mkFile file_name lastModified (Some vars2)).
Proof. intros H. now rewrite (map_eq vars1 vars2 H). Qed.

(** *** Small runs *)

Example small_tree_headers :
  List.map snd (pieces_of TagHeader (analyzeNode whole_toString Samples.small_tree 0))
  = [ "## 🏗️ root (FRAME)" +:+ Js.nl +:+ Js.nl;
      "  ## 📦 first (TEXT)" +:+ Js.nl +:+ Js.nl;
      "  ## 📦 second (GROUP)" +:+ Js.nl +:+ Js.nl;
      "    ## 📦 inner (VECTOR)" +:+ Js.nl +:+ Js.nl ]
  /\ countNodes Samples.small_tree = 4%nat
  /\ List.map snd (pieces_of TagDivider (analyzeNode whole_toString Samples.small_tree 0))
     = [ "---" +:+ Js.nl +:+ Js.nl ].
Proof. repeat split. Qed.

Example login_screen_scenario :
  Js.includes
    (generateDetailedVisualDescription whole_toString Samples.login_screen Samples.login_file)
    "#ffffff" = true
  /\ Js.includes
       (generateDetailedVisualDescription whole_toString Samples.login_screen Samples.login_file)
       "Text element" = true.
Proof. split; vm_compute; reflexivity. Qed.

End DescriptorEngineFacts.

(* ------------------------------------------------------------------ *)
(** ** DocumentAssembler: the sanitised file name *)
(* ------------------------------------------------------------------ *)

Section SanitizerFacts.

Import DocumentAssembler.

Lemma lower_ascii_not_upper (c : ascii) : in_range 65 90 (Js.lower_ascii c) = false.
Proof. destruct c as [[] [] [] [] [] [] [] []]; reflexivity. Qed.

Lemma toLowerCase_no_upper (s : string) : no_upper (Js.toLowerCase s) = true.
Proof.
  induction s as [|c s IH]; simpl; [reflexivity|].
  now rewrite lower_ascii_not_upper, IH.
Qed.

Lemma alphanumeric_lower (c : ascii) :
  in_range 65 90 c = false -> alphanumeric c = lower_alnum c.
Proof. intros H. unfold alphanumeric, lower_alnum. rewrite H. now rewrite orb_false_r. Qed.

(** *** Runs *)

Lemma runs_head (c : ascii) (rest : string) :
  exists run more, runs (String c rest) = (alphanumeric c, String c run) :: more.
Proof.
  simpl. destruct (runs rest) as [|[flag run] more].
  - eexists _, _. reflexivity.
  - destruct (Bool.eqb flag (alphanumeric c)) eqn:E.
    + apply Bool.eqb_prop in E. subst flag. eexists _, _. reflexivity.
    + eexists _, _. reflexivity.
Qed.

Lemma collapse_cons (c : ascii) (rest : string) :
  collapse (String c rest)
  = if alphanumeric c then String c (collapse rest)
    else if starts_outside rest then collapse rest
    else "-" +:+ collapse rest.
Proof.
  unfold collapse. destruct rest as [|d rest].
  - simpl. destruct (alphanumeric c); reflexivity.
  - destruct (runs_head d rest) as (run & more & E).
    change (runs (String c (String d rest)))
      with (match runs (String d rest) with
            | (flag, run) :: more =>
                if Bool.eqb flag (alphanumeric c)
                then (flag, String c run) :: more
                else (alphanumeric c, String c EmptyString) :: (flag, run) :: more
            | [] => [ (alphanumeric c, String c EmptyString) ]
            end).
    rewrite E. unfold starts_outside.
    destruct (alphanumeric c), (alphanumeric d); reflexivity.
Qed.

Lemma replace_runs_resume (s : string) :
  replace_runs false s
  = if match s with
       | EmptyString => false
       | String c _ => negb (lower_alnum c)
       end
    then "-" +:+ replace_runs true s
    else replace_runs true s.
Proof. destruct s as [|c s]; simpl; [reflexivity|]. destruct (lower_alnum c); reflexivity. Qed.

Lemma collapse_replace_runs (s : string) :
  no_upper s = true -> collapse s = replace_runs false s.
Proof.
  induction s as [|c s IH]; [reflexivity|].
  simpl no_upper. intros H. apply andb_true_iff in H. destruct H as [Hc Hs].
  apply negb_true_iff in Hc.
  rewrite collapse_cons, (IH Hs), (alphanumeric_lower c Hc). simpl replace_runs.
  destruct (lower_alnum c); [reflexivity|].
  rewrite (replace_runs_resume s).
  destruct s as [|d s]; [reflexivity|].
  simpl in Hs. apply andb_true_iff in Hs. destruct Hs as [Hd _].
  apply negb_true_iff in Hd.
  unfold starts_outside. rewrite (alphanumeric_lower d Hd).
  destruct (lower_alnum d); reflexivity.
Qed.

(** *** Leading and trailing dashes *)

Lemma all_dashes_app (a b : string) :
  all_dashes (a +:+ b) = all_dashes a && all_dashes b.
Proof.
  induction a as [|x a IH]; simpl; [reflexivity|].
  now rewrite IH, andb_assoc.
Qed.

Lemma all_dashes_reverse (s : string) : all_dashes (reverse s) = all_dashes s.
Proof.
  induction s as [|c s IH]; simpl; [reflexivity|].
  rewrite all_dashes_app, IH. simpl. rewrite andb_true_r. apply andb_comm.
Qed.

Lemma reverse_app (a b : string) : reverse (a +:+ b) = reverse b +:+ reverse a.
Proof.
  induction a as [|x a IH]; simpl.
  - now rewrite append_empty_r.
  - now rewrite IH, append_assoc.
Qed.

Lemma drop_leading_last (u : string) (c : ascii) :
  drop_leading_dashes (u +:+ String c EmptyString)
  = if all_dashes u
    then (if is_dash c then EmptyString else String c EmptyString)
    else drop_leading_dashes u +:+ String c EmptyString.
Proof.
  induction u as [|a u IH]; simpl; [reflexivity|].
  destruct (is_dash a); simpl; [exact IH | reflexivity].
Qed.

Lemma drop_trailing_all_dashes (s : string) :
  all_dashes s = true -> drop_trailing_dashes s = EmptyString.
Proof. destruct s as [|c s]; simpl; [reflexivity|]. now intros ->. Qed.

Lemma trailing_by_reversal (s : string) :
  reverse (drop_leading_dashes (reverse s)) = drop_trailing_dashes s.
Proof.
  induction s as [|c s IH]; [reflexivity|].
  simpl reverse. rewrite drop_leading_last, all_dashes_reverse. simpl drop_trailing_dashes.
  destruct (all_dashes s) eqn:E.
  - rewrite andb_true_r. destruct (is_dash c); [reflexivity|].
    now rewrite (drop_trailing_all_dashes s E).
  - rewrite andb_false_r, reverse_app, IH. reflexivity.
Qed.

Lemma trim_dashes_edges (s : string) : trim_dashes s = replace_edge_dashes s.
Proof. unfold trim_dashes, replace_edge_dashes. apply trailing_by_reversal. Qed.

(** C7.  The sanitised file name of a title is the title in lower
    case, with every maximal run of characters that are not letters or
    digits collapsed to one dash, and the dashes at its two ends removed;
    ["Login Screen!! v2"] gives ["login-screen-v2"]. *)
Theorem sanitizedFileName_spec (title : string) :
  sanitizedFileName title = sanitize_spec title
  /\ sanitizedFileName "Login Screen!! v2" = "login-screen-v2".
Proof.
  split; [|vm_compute; reflexivity].
  unfold sanitizedFileName, sanitize_spec.
  rewrite trim_dashes_edges.
  now rewrite (collapse_replace_runs _ (toLowerCase_no_upper title)).
Qed.

Example sanitize_edges :
  sanitizedFileName "  --Café  Menu (v3)__" = "caf-menu-v3"
  /\ sanitizedFileName "!!!" = EmptyString
  /\ runs "ab--c" = [ (true, "ab"); (false, "--"); (true, "c") ].
Proof. repeat split; vm_compute; reflexivity. Qed.

End SanitizerFacts.

(* ------------------------------------------------------------------ *)
(** ** More on strings: prefixes, suffixes, occurrences *)
(* ------------------------------------------------------------------ *)

Section MoreStringFacts.

Lemma string_length_app (a b : string) :
  String.length (a +:+ b) = (String.length a + String.length b)%nat.
Proof. induction a as [|x a IH]; simpl; [reflexivity | now rewrite IH]. Qed.

Lemma startsWith_app (p rest : string) : Js.startsWith (p +:+ rest) p = true.
Proof.
  induction p as [|c p IH]; simpl.
  - apply startsWith_empty.
  - now rewrite Ascii.eqb_refl, IH.
Qed.

Lemma startsWith_iff (s p : string) :
  Js.startsWith s p = true <-> exists rest, s = p +:+ rest.
Proof.
  split.
  - revert s. induction p as [|c p IH]; intros s H.
    + exists s. reflexivity.
    + destruct s as [|d s]; simpl in H; [discriminate|].
      apply andb_true_iff in H. destruct H as [Hc Hs].
      apply Ascii.eqb_eq in Hc. subst d.
      destruct (IH s Hs) as [rest ->]. exists rest. reflexivity.
  - intros [rest ->]. apply startsWith_app.
Qed.

Lemma includes_startsWith (s p : string) :
  Js.startsWith s p = true -> Js.includes s p = true.
Proof. intros H. destruct s as [|c s]; cbn [Js.includes]; now rewrite H. Qed.

Lemma includes_app (pre p post : string) :
  Js.includes (pre +:+ p +:+ post) p = true.
Proof.
  induction pre as [|c pre IH]; simpl.
  - apply includes_startsWith, startsWith_app.
  - rewrite IH. apply orb_true_r.
Qed.

Lemma includes_iff (s p : string) :
  Js.includes s p = true <-> exists pre post, s = pre +:+ p +:+ post.
Proof.
  split.
  - induction s as [|c s IH]; cbn [Js.includes]; intros H.
    + apply orb_true_iff in H. destruct H as [H|H]; [|discriminate].
      apply startsWith_iff in H. destruct H as [rest H].
      exists EmptyString, rest. exact H.
    + apply orb_true_iff in H. destruct H as [H|H].
      * apply startsWith_iff in H. destruct H as [rest H].
        exists EmptyString, rest. exact H.
      * destruct (IH H) as (pre & post & ->).
        exists (String c pre), post. reflexivity.
  - intros (pre & post & ->). apply includes_app.
Qed.

Lemma drop_length_app (a b : string) : Js.drop (String.length a) (a +:+ b) = b.
Proof.
  induction a as [|x a IH]; simpl; [|exact IH].
  destruct b; reflexivity.
Qed.

Lemma drop_split (n : nat) (s : string) :
  (n <= String.length s)%nat ->
  exists pre, s = pre +:+ Js.drop n s /\ String.length pre = n.
Proof.
  revert s. induction n as [|n IH]; intros s Hn.
  - exists EmptyString. split; [|reflexivity]. destruct s; reflexivity.
  - destruct s as [|c s]; simpl in Hn; [lia|].
    destruct (IH s) as (pre & E & L); [lia|].
    exists (String c pre). simpl. split; [now rewrite <- E | now rewrite L].
Qed.

Lemma endsWith_app (s p : string) : Js.endsWith (s +:+ p) p = true.
Proof.
  unfold Js.endsWith. rewrite string_length_app.
  replace (String.length s + String.length p - String.length p)%nat
    with (String.length s) by lia.
  rewrite drop_length_app, String.eqb_refl, andb_true_r.
  apply Nat.leb_le. lia.
Qed.

Lemma endsWith_iff (s p : string) :
  Js.endsWith s p = true <-> exists pre, s = pre +:+ p.
Proof.
  split.
  - unfold Js.endsWith. intros H. apply andb_true_iff in H. destruct H as [Hlen Heq].
    apply Nat.leb_le in Hlen. apply String.eqb_eq in Heq.
    destruct (drop_split (String.length s - String.length p) s) as (pre & E & _); [lia|].
    exists pre. now rewrite Heq in E.
  - intros [pre ->]. apply endsWith_app.
Qed.

Lemma app_cancel_r (a a' b : string) : a +:+ b = a' +:+ b -> a = a'.
Proof.
  revert a'. induction a as [|x a IH]; intros a' H.
  - destruct a' as [|y a']; [reflexivity|].
    apply (f_equal String.length) in H. simpl in H. rewrite string_length_app in H. lia.
  - destruct a' as [|y a'].
    + apply (f_equal String.length) in H. simpl in H. rewrite string_length_app in H. lia.
    + simpl in H. injection H as -> H. f_equal. now apply IH.
Qed.

Lemma endsWith_common_suffix (a c b : string) :
  Js.endsWith (a +:+ b) (c +:+ b) = Js.endsWith a c.
Proof.
  apply Bool.eq_iff_eq_true. rewrite !endsWith_iff. split.
  - intros [pre H]. exists pre.
    rewrite <- append_assoc in H. now apply app_cancel_r in H.
  - intros [pre ->]. exists pre. now rewrite append_assoc.
Qed.

End MoreStringFacts.

(* ------------------------------------------------------------------ *)
(** ** Logger *)
(* ------------------------------------------------------------------ *)

Section LoggerFacts.

Import Logger.

Lemma run_app (a b : list call) (st : State) : run (a ++ b) st = run b (run a st).
Proof. apply List.fold_left_app. Qed.

Lemma step_stdio (c : call) (st : State) :
  isHTTP st = false ->
  enables_http c = false ->
  isHTTP (step st c) = false
  /\ stdout (console (step st c)) = stdout (console st)
  /\ List.length (stderr (console (step st c)))
     = (List.length (stderr (console st)) + (if is_message c then 1 else 0))%nat.
Proof.
  intros Hflag Hc. destruct c as [args|args|[|]]; try discriminate; simpl.
  - unfold log. rewrite Hflag. simpl. rewrite List.length_app. simpl. auto.
  - rewrite List.length_app. simpl. auto.
  - rewrite Nat.add_0_r. auto.
Qed.

Lemma run_stdio (calls : list call) (st : State) :
  isHTTP st = false ->
  existsb enables_http calls = false ->
  isHTTP (run calls st) = false
  /\ stdout (console (run calls st)) = stdout (console st)
  /\ List.length (stderr (console (run calls st)))
     = (List.length (stderr (console st)) + List.length (List.filter is_message calls))%nat.
Proof.
  revert st. induction calls as [|c calls IH]; intros st Hflag Hcalls.
  - simpl. repeat split; try assumption. lia.
  - simpl in Hcalls. apply orb_false_iff in Hcalls. destruct Hcalls as [Hc Hcalls].
    change (run (c :: calls) st) with (run calls (step st c)).
    destruct (step_stdio c st Hflag Hc) as (F1 & O1 & E1).
    destruct (IH (step st c) F1 Hcalls) as (F & O & E).
    split; [exact F|]. split; [now rewrite O|].
    rewrite E, E1. simpl List.filter. destruct (is_message c); simpl; lia.
Qed.

(** X1.  As long as no server is created in HTTP mode, the logger writes
    nothing to the standard output, whatever is logged: every message,
    informational or error, is one more line of the standard error. *)
Theorem stdio_logger_keeps_stdout_clean (calls : list call) :
  existsb enables_http calls = false ->
  stdout (console (run calls initial)) = []
  /\ List.length (stderr (console (run calls initial)))
     = List.length (List.filter is_message calls).
Proof.
  intros H. destruct (run_stdio calls initial eq_refl H) as (_ & O & E).
  split; [exact O | exact E].
Qed.

Lemma stdio_logger_keeps_stdout_clean_witness :
  stdout (console (run [CreateServer false; Log ["fetching"]; Error ["failed"]] initial)) = []
  /\ List.length
       (stderr (console (run [CreateServer false; Log ["fetching"]; Error ["failed"]] initial)))
     = 2%nat.
Proof.
  exact (stdio_logger_keeps_stdout_clean
           [CreateServer false; Log ["fetching"]; Error ["failed"]] eq_refl).
Defined.

Lemma run_errors (calls : list call) (st : State) :
  List.filter is_error_line
              (stdout (console (run calls st)))
  = List.filter is_error_line
                (stdout (console st))
  /\ List.filter is_error_line
                 (stderr (console (run calls st)))
     = List.filter is_error_line
                   (stderr (console st))
       ++ error_lines calls.
Proof.
  revert st. induction calls as [|c calls IH]; intros st.
  - simpl. now rewrite List.app_nil_r.
  - change (run (c :: calls) st) with (run calls (step st c)).
    destruct (IH (step st c)) as [O E]. rewrite O, E. clear IH O E.
    destruct c as [args|args|flag]; simpl step.
    + unfold log. destruct (isHTTP st); simpl;
        rewrite ?List.filter_app; simpl; rewrite ?List.app_nil_r; split; reflexivity.
    + simpl. rewrite List.filter_app. simpl. rewrite <- List.app_assoc. split; reflexivity.
    + split; reflexivity.
Qed.

(** X2.  In every mode, and whatever the mode is switched to in
    between, the error messages go to the standard error and never to the
    standard output: the [[ERROR]] lines of the standard error are those of
    the [Error] calls, in the order of the calls. *)
Theorem errors_always_on_stderr (calls : list call) :
  List.filter is_error_line
              (stdout (console (run calls initial))) = []
  /\ List.filter is_error_line
                 (stderr (console (run calls initial)))
     = error_lines calls.
Proof. destruct (run_errors calls initial) as [O E]. split; [exact O | exact E]. Qed.

End LoggerFacts.

(* ------------------------------------------------------------------ *)
(** ** The working directory and the files written *)
(* ------------------------------------------------------------------ *)

Section WorkspaceFacts.

Import Workspace.

Lemma or_str_nonempty (o : option string) (d : string) :
  d <> EmptyString -> Js.or_str o d <> EmptyString.
Proof. intros Hd. destruct o as [[|c s]|]; simpl; [exact Hd | discriminate | exact Hd]. Qed.

Lemma or_str_cases (o : option string) (d : string) :
  (Js.truthy_str o = true /\ o = Some (Js.or_str o d))
  \/ (Js.truthy_str o = false /\ Js.or_str o d = d).
Proof. destruct o as [[|c s]|]; simpl; auto. Qed.

(** X3.  The working directory is never the empty string, and it is the
    root directory only when the fallback taken from HOME (or, HOME being
    unset or empty, from USERPROFILE) is itself the root; a PWD that is set
    and is not the root is the answer, whatever the other variables. *)
Theorem getClientWorkingDirectory_guard (env : ProcessEnv) :
  getClientWorkingDirectory env <> EmptyString
  /\ (getClientWorkingDirectory env = "/" ->
      HOME env = Some "/"
      \/ (Js.truthy_str (HOME env) = false /\ USERPROFILE env = Some "/"))
  /\ (forall dir, PWD env = Some dir -> dir <> EmptyString -> dir <> "/" ->
                  getClientWorkingDirectory env = dir).
Proof.
  unfold getClientWorkingDirectory.
  set (userDir := Js.or_str (PWD env) (Js.or_str (INIT_CWD env) (cwd env))).
  split; [|split].
  - destruct (Js.is_empty userDir || String.eqb userDir "/") eqn:E.
    + apply or_str_nonempty, or_str_nonempty. discriminate.
    + apply orb_false_iff in E. destruct E as [E _].
      destruct userDir; [discriminate | discriminate].
  - destruct (Js.is_empty userDir || String.eqb userDir "/") eqn:E.
    + intros H.
      destruct (or_str_cases (HOME env) (Js.or_str (USERPROFILE env) "./")) as [[_ Eh]|[Th Eh]].
      * left. now rewrite Eh, H.
      * right. split; [exact Th|]. rewrite Eh in H.
        destruct (or_str_cases (USERPROFILE env) "./") as [[_ Eu]|[_ Eu]].
        -- now rewrite Eu, H.
        -- rewrite Eu in H. discriminate.
    + intros H. apply orb_false_iff in E. destruct E as [_ E].
      apply String.eqb_neq in E. contradiction.
  - intros dir Hpwd Hne Hroot. subst userDir. rewrite Hpwd.
    destruct dir as [|c dir]; [contradiction|]. simpl Js.or_str. simpl Js.is_empty.
    apply String.eqb_neq in Hroot. now rewrite Hroot.
Qed.

Lemma safePath_cases (dir : string) :
  (safePath dir = "./"
   /\ (Js.is_empty dir || String.eqb dir "/"
       || Js.startsWith dir "/usr" || Js.startsWith dir "/etc") = true)
  \/ (safePath dir = dir
      /\ Js.is_empty dir = false /\ String.eqb dir "/" = false
      /\ Js.startsWith dir "/usr" = false /\ Js.startsWith dir "/etc" = false).
Proof.
  unfold safePath.
  destruct (Js.is_empty dir) eqn:E1; [left; auto|].
  destruct (String.eqb dir "/") eqn:E2; [left; auto|].
  destruct (Js.startsWith dir "/usr") eqn:E3; [left; auto|].
  destruct (Js.startsWith dir "/etc") eqn:E4; [left; auto|].
  right. auto.
Qed.

(** X4.  The directory [get_figma_data_to_file] writes the data file to
    is never empty, never the root, and never a path that starts with
    [/usr] or [/etc]; a directory that is none of these is kept as it is,
    and every other one becomes [./].  The guard is on the text of the
    path: [/usrdata] is refused too. *)
Theorem safePath_guard (dir : string) :
  safePath dir <> EmptyString
  /\ safePath dir <> "/"
  /\ Js.startsWith (safePath dir) "/usr" = false
  /\ Js.startsWith (safePath dir) "/etc" = false
  /\ (safePath dir = dir \/ safePath dir = "./")
  /\ (forall rest, safePath ("/usr" +:+ rest) = "./")
  /\ (forall rest, safePath ("/etc" +:+ rest) = "./").
Proof.
  split; [|split; [|split; [|split; [|split; [|split]]]]].
  - destruct (safePath_cases dir) as [[-> _]|(-> & E & _)]; [discriminate|].
    destruct dir; [discriminate | discriminate].
  - destruct (safePath_cases dir) as [[-> _]|(-> & _ & E & _)]; [discriminate|].
    now apply String.eqb_neq.
  - destruct (safePath_cases dir) as [[-> _]|(-> & _ & _ & E & _)]; [reflexivity | exact E].
  - destruct (safePath_cases dir) as [[-> _]|(-> & _ & _ & _ & E)]; [reflexivity | exact E].
  - destruct (safePath_cases dir) as [[-> _]|(-> & _)]; auto.
  - intros rest. unfold safePath.
    rewrite (startsWith_app "/usr" rest). now rewrite orb_true_r.
  - intros rest. unfold safePath.
    rewrite (startsWith_app "/etc" rest). now rewrite orb_true_r.
Qed.

Lemma gitignore_block_pattern (content : string) :
  Js.includes (content +:+ gitignore_block) "*-figma-data.md" = true.
Proof.
  apply includes_iff.
  exists (content +:+ Js.nl +:+ "# Figma exported data" +:+ Js.nl),
         (Js.nl +:+ "*-visual-description.md" +:+ Js.nl
          +:+ "*-technical-specification.md" +:+ Js.nl).
  unfold gitignore_block. now rewrite !append_assoc.
Qed.

(** X5.  The [.gitignore] step never creates the file, only ever adds
    to the end of an existing one, leaves a file that mentions
    [*-figma-data.md] unchanged, and is idempotent: after one run the file
    mentions the pattern, and a second run changes nothing. *)
Theorem update_gitignore_idempotent (file : option string) :
  update_gitignore (update_gitignore file) = update_gitignore file
  /\ (update_gitignore file = None <-> file = None)
  /\ (forall content, file = Some content ->
        exists content',
          update_gitignore file = Some content'
          /\ Js.startsWith content' content = true
          /\ Js.includes content' "*-figma-data.md" = true
          /\ (Js.includes content "*-figma-data.md" = true -> content' = content)).
Proof.
  split; [|split].
  - destruct file as [content|]; [|reflexivity]. simpl.
    destruct (Js.includes content "*-figma-data.md") eqn:E; simpl.
    + now rewrite E.
    + now rewrite gitignore_block_pattern.
  - destruct file as [content|]; simpl.
    + destruct (Js.includes content "*-figma-data.md"); simpl; split; discriminate.
    + split; reflexivity.
  - intros content ->. simpl.
    destruct (Js.includes content "*-figma-data.md") eqn:E; simpl.
    + exists content. repeat split; try assumption.
      rewrite <- (append_empty_r content) at 1. apply startsWith_app.
    + exists (content +:+ gitignore_block). repeat split.
      * apply startsWith_app.
      * apply gitignore_block_pattern.
      * discriminate.
Qed.

(** X6.  The path the data file is written to always ends in [.md]:
    a path that already does is kept, any other gets [.md] appended, and
    applying the step twice is the same as applying it once. *)
Theorem outputPath_extension (filePath : string) :
  Js.endsWith (outputPath filePath) ".md" = true
  /\ Js.startsWith (outputPath filePath) filePath = true
  /\ outputPath (outputPath filePath) = outputPath filePath
  /\ (forall stem, outputPath (stem +:+ ".md") = stem +:+ ".md").
Proof.
  assert (Hfix : forall p, Js.endsWith p ".md" = true -> outputPath p = p).
  { intros p H. unfold outputPath. now rewrite H. }
  assert (Hend : Js.endsWith (outputPath filePath) ".md" = true).
  { unfold outputPath. destruct (Js.endsWith filePath ".md") eqn:E; simpl;
      [exact E | apply endsWith_app]. }
  split; [exact Hend|]. split; [|split].
  - unfold outputPath. destruct (Js.endsWith filePath ".md"); simpl.
    + rewrite <- (append_empty_r filePath) at 1. apply startsWith_app.
    + apply startsWith_app.
  - now apply Hfix.
  - intros stem. apply Hfix, endsWith_app.
Qed.

(** X7.  Whatever the titles, the files written by
    [generate_visual_description] and [generate_technical_specification]
    pass the filter of [list_figma_exports]; the file written by
    [get_figma_data_to_file] passes it only when the sanitised name itself
    ends in [-visual-description], [-technical-specification] or
    [-figma-data]. *)
Theorem listing_of_written_files
    (fileName node_name : option string) (file_name : string) :
  is_listed (outputFileName_visual fileName node_name) = true
  /\ is_listed (outputFileName_specification fileName node_name) = true
  /\ is_listed (outputFileName_data fileName file_name)
     = (Js.endsWith
          (DocumentAssembler.sanitizedFileName
             (DocumentAssembler.title_data_to_file fileName file_name))
          "-visual-description"
        || Js.endsWith
             (DocumentAssembler.sanitizedFileName
                (DocumentAssembler.title_data_to_file fileName file_name))
             "-technical-specification"
        || Js.endsWith
             (DocumentAssembler.sanitizedFileName
                (DocumentAssembler.title_data_to_file fileName file_name))
             "-figma-data").
Proof.
  split; [|split].
  - unfold is_listed, outputFileName_visual. now rewrite endsWith_app.
  - unfold is_listed, outputFileName_specification.
    rewrite (endsWith_app _ "-technical-specification.md"). now rewrite orb_true_r.
  - unfold is_listed, outputFileName_data.
    change "-visual-description.md" with ("-visual-description" +:+ ".md").
    change "-technical-specification.md" with ("-technical-specification" +:+ ".md").
    change "-figma-data.md" with ("-figma-data" +:+ ".md").
    now rewrite !endsWith_common_suffix.
Qed.

Example data_file_not_listed :
  outputFileName_data None "Login Screen" = "login-screen.md"
  /\ is_listed (outputFileName_data None "Login Screen") = false.
Proof. split; vm_compute; reflexivity. Qed.

End WorkspaceFacts.

(* ------------------------------------------------------------------ *)
(** ** The sanitised file name: shape, idempotence, emptiness *)
(* ------------------------------------------------------------------ *)

Section SlugFacts.

Import DocumentAssembler Text.

Lemma alnum_not_dash (c : ascii) : lower_alnum c = true -> is_dash c = false.
Proof.
  destruct (is_dash c) eqn:E; [|reflexivity].
  apply Ascii.eqb_eq in E. subst c. vm_compute. discriminate.
Qed.

Lemma is_dash_eq (c : ascii) : is_dash c = true -> c = "-"%char.
Proof. apply Ascii.eqb_eq. Qed.

(** *** Characters *)

Lemma replace_runs_chars (b : bool) (s : string) :
  all_chars slug_char (replace_runs b s) = true.
Proof.
  revert b. induction s as [|c s IH]; intros b; simpl; [reflexivity|].
  destruct (lower_alnum c) eqn:E.
  - simpl. unfold slug_char at 1. now rewrite E, IH.
  - destruct b; [apply IH|]. simpl. apply IH.
Qed.

Lemma drop_leading_chars (p : ascii -> bool) (s : string) :
  all_chars p s = true -> all_chars p (drop_leading_dashes s) = true.
Proof.
  induction s as [|c s IH]; simpl; [reflexivity|]. intros H.
  destruct (is_dash c); [|exact H].
  apply andb_true_iff in H. now apply IH.
Qed.

Lemma drop_trailing_chars (p : ascii -> bool) (s : string) :
  all_chars p s = true -> all_chars p (drop_trailing_dashes s) = true.
Proof.
  induction s as [|c s IH]; simpl; [reflexivity|]. intros H.
  apply andb_true_iff in H. destruct H as [Hc Hs].
  destruct (is_dash c && all_dashes s); [reflexivity|].
  simpl. now rewrite Hc, IH.
Qed.

Lemma all_chars_excludes (p q : ascii -> bool) (s : string) :
  (forall c, p c = true -> q c = false) ->
  all_chars p s = true -> some_char q s = false.
Proof.
  intros Hpq. induction s as [|c s IH]; simpl; [reflexivity|]. intros H.
  apply andb_true_iff in H. destruct H as [Hc Hs].
  now rewrite (Hpq c Hc), IH.
Qed.

(** *** Dashes *)

Lemma replace_runs_shape (s : string) :
  starts_with_dash (replace_runs true s) = false
  /\ double_dash (replace_runs true s) = false
  /\ double_dash (replace_runs false s) = false.
Proof.
  induction s as [|c s (IH1 & IH2 & IH3)]; simpl; [auto|].
  destruct (lower_alnum c) eqn:E; simpl.
  - rewrite (alnum_not_dash c E), IH3. auto.
  - rewrite IH1, IH2. auto.
Qed.

Lemma drop_leading_no_dash (s : string) :
  starts_with_dash (drop_leading_dashes s) = false.
Proof.
  induction s as [|c s IH]; simpl; [reflexivity|].
  destruct (is_dash c) eqn:E; [exact IH | exact E].
Qed.

Lemma drop_trailing_start (s : string) :
  starts_with_dash s = false -> starts_with_dash (drop_trailing_dashes s) = false.
Proof.
  destruct s as [|c s]; simpl; [reflexivity|]. intros H.
  destruct (is_dash c && all_dashes s); [reflexivity | exact H].
Qed.

Lemma drop_leading_double (s : string) :
  double_dash s = false -> double_dash (drop_leading_dashes s) = false.
Proof.
  induction s as [|c s IH]; [reflexivity|]. intros H.
  simpl drop_leading_dashes. destruct (is_dash c); [|exact H].
  simpl in H. apply orb_false_iff in H. now apply IH.
Qed.

Lemma drop_trailing_double (s : string) :
  double_dash s = false -> double_dash (drop_trailing_dashes s) = false.
Proof.
  induction s as [|c s IH]; [reflexivity|]. intros H.
  simpl in H. apply orb_false_iff in H. destruct H as [Hc Hs].
  simpl drop_trailing_dashes. destruct (is_dash c && all_dashes s); [reflexivity|].
  simpl. rewrite (IH Hs), orb_false_r.
  destruct (is_dash c); [|reflexivity]. simpl in *.
  now apply drop_trailing_start.
Qed.

Lemma drop_trailing_empty (s : string) :
  drop_trailing_dashes s = EmptyString -> all_dashes s = true.
Proof.
  destruct s as [|c s]; simpl; [reflexivity|].
  destruct (is_dash c && all_dashes s); [reflexivity | discriminate].
Qed.

Lemma drop_trailing_no_dash (s : string) :
  ends_with_dash (drop_trailing_dashes s) = false.
Proof.
  induction s as [|c s IH]; [reflexivity|].
  simpl drop_trailing_dashes.
  destruct (is_dash c && all_dashes s) eqn:E; [reflexivity|].
  destruct (drop_trailing_dashes s) as [|d t] eqn:Et.
  - simpl. apply drop_trailing_empty in Et. rewrite Et, andb_true_r in E. exact E.
  - exact IH.
Qed.

Lemma sanitized_clean (title : string) : clean_slug (sanitizedFileName title).
Proof.
  unfold clean_slug, sanitizedFileName, replace_edge_dashes.
  destruct (replace_runs_shape (Js.toLowerCase title)) as (_ & _ & Hdd).
  repeat split.
  - apply drop_trailing_chars, drop_leading_chars, replace_runs_chars.
  - apply drop_trailing_start, drop_leading_no_dash.
  - apply drop_trailing_no_dash.
  - now apply drop_trailing_double, drop_leading_double.
Qed.

(** *** A clean name is left as it is *)

Lemma slug_char_lower (c : ascii) : slug_char c = true -> Js.lower_ascii c = c.
Proof.
  destruct c as [[] [] [] [] [] [] [] []]; intros H;
    first [reflexivity | vm_compute in H; discriminate H].
Qed.

Lemma toLowerCase_slug (s : string) :
  all_chars slug_char s = true -> Js.toLowerCase s = s.
Proof.
  induction s as [|c s IH]; simpl; [reflexivity|]. intros H.
  apply andb_true_iff in H. destruct H as [Hc Hs].
  now rewrite (slug_char_lower c Hc), IH.
Qed.

Lemma replace_runs_slug (s : string) :
  all_chars slug_char s = true -> double_dash s = false ->
  replace_runs false s = s
  /\ (starts_with_dash s = false -> replace_runs true s = s).
Proof.
  induction s as [|c s IH]; [auto|]. intros Hall Hdd.
  simpl in Hall. apply andb_true_iff in Hall. destruct Hall as [Hc Hs].
  simpl in Hdd. apply orb_false_iff in Hdd. destruct Hdd as [Hcd Hdd].
  destruct (IH Hs Hdd) as [IHf IHt]. simpl replace_runs.
  destruct (lower_alnum c) eqn:E.
  - rewrite IHf. auto.
  - unfold slug_char in Hc. rewrite E in Hc. simpl in Hc.
    rewrite Hc in Hcd. simpl in Hcd. apply is_dash_eq in Hc. subst c.
    rewrite (IHt Hcd). split; [reflexivity|]. simpl. discriminate.
Qed.

Lemma drop_leading_fixed (s : string) :
  starts_with_dash s = false -> drop_leading_dashes s = s.
Proof. destruct s as [|c s]; simpl; [reflexivity|]. now intros ->. Qed.

Lemma all_dashes_ends (c : ascii) (s : string) :
  is_dash c = true -> all_dashes s = true -> ends_with_dash (String c s) = true.
Proof.
  revert c. induction s as [|d s IH]; intros c Hc Hs; simpl; [exact Hc|].
  simpl in Hs. apply andb_true_iff in Hs. destruct Hs as [Hd Hs].
  now apply IH.
Qed.

Lemma drop_trailing_fixed (s : string) :
  ends_with_dash s = false -> drop_trailing_dashes s = s.
Proof.
  induction s as [|c s IH]; [reflexivity|]. intros H.
  simpl drop_trailing_dashes.
  destruct (is_dash c && all_dashes s) eqn:E.
  - apply andb_true_iff in E. destruct E as [Hc Hs].
    rewrite (all_dashes_ends c s Hc Hs) in H. discriminate.
  - f_equal. apply IH. destruct s as [|d s]; [reflexivity | exact H].
Qed.

Lemma clean_slug_fixed (s : string) : clean_slug s -> sanitizedFileName s = s.
Proof.
  intros (Hall & Hstart & Hend & Hdd).
  unfold sanitizedFileName, replace_edge_dashes.
  rewrite (toLowerCase_slug s Hall).
  destruct (replace_runs_slug s Hall Hdd) as [-> _].
  now rewrite (drop_leading_fixed s Hstart), (drop_trailing_fixed s Hend).
Qed.

(** *** Emptiness *)

Lemma replace_runs_all_dashes (b : bool) (s : string) :
  all_dashes (replace_runs b s) = negb (some_char lower_alnum s).
Proof.
  revert b. induction s as [|c s IH]; intros b; simpl; [reflexivity|].
  destruct (lower_alnum c) eqn:E; simpl.
  - now rewrite (alnum_not_dash c E).
  - destruct b; simpl; apply IH.
Qed.

Lemma drop_leading_all_dashes (s : string) :
  all_dashes (drop_leading_dashes s) = all_dashes s.
Proof.
  induction s as [|c s IH]; simpl; [reflexivity|].
  destruct (is_dash c) eqn:E; simpl; [exact IH | now rewrite E].
Qed.

Lemma drop_leading_of_dashes (s : string) :
  all_dashes s = true -> drop_leading_dashes s = EmptyString.
Proof.
  induction s as [|c s IH]; simpl; [reflexivity|]. intros H.
  apply andb_true_iff in H. destruct H as [-> Hs]. now apply IH.
Qed.

Lemma replace_edge_dashes_empty (s : string) :
  Js.is_empty (replace_edge_dashes s) = all_dashes s.
Proof.
  unfold replace_edge_dashes. destruct (all_dashes s) eqn:E.
  - now rewrite (drop_leading_of_dashes s E).
  - destruct (drop_trailing_dashes (drop_leading_dashes s)) as [|c t] eqn:Et;
      [|reflexivity].
    apply drop_trailing_empty in Et. rewrite drop_leading_all_dashes in Et. congruence.
Qed.

Lemma lower_alnum_lower (c : ascii) : lower_alnum (Js.lower_ascii c) = alphanumeric c.
Proof. destruct c as [[] [] [] [] [] [] [] []]; reflexivity. Qed.

Lemma some_alnum_lower (s : string) :
  some_char lower_alnum (Js.toLowerCase s) = some_char alphanumeric s.
Proof.
  induction s as [|c s IH]; simpl; [reflexivity|].
  now rewrite lower_alnum_lower, IH.
Qed.

(** X8.  A sanitised file name holds only the characters [a-z], [0-9]
    and [-]; it neither starts nor ends with a dash and has no two dashes
    in a row.  In particular it holds no [/], no backslash and no dot, so
    it cannot name a file outside the directory it is joined to. *)
Theorem sanitizedFileName_shape (title : string) :
  all_chars slug_char (sanitizedFileName title) = true
  /\ starts_with_dash (sanitizedFileName title) = false
  /\ ends_with_dash (sanitizedFileName title) = false
  /\ double_dash (sanitizedFileName title) = false
  /\ some_char (fun c => Ascii.eqb c "/" || Ascii.eqb c "\" || Ascii.eqb c ".")
               (sanitizedFileName title) = false.
Proof.
  destruct (sanitized_clean title) as (Hall & Hstart & Hend & Hdd).
  repeat split; try assumption.
  apply (all_chars_excludes slug_char); [|exact Hall].
  intros c Hc.
  destruct (Ascii.eqb c "/") eqn:E1; [apply Ascii.eqb_eq in E1; subst c; discriminate|].
  destruct (Ascii.eqb c "\") eqn:E2; [apply Ascii.eqb_eq in E2; subst c; discriminate|].
  destruct (Ascii.eqb c ".") eqn:E3; [apply Ascii.eqb_eq in E3; subst c; discriminate|].
  reflexivity.
Qed.

(** X9.  Sanitising is idempotent: a name that is already sanitised is
    left as it is. *)
Theorem sanitizedFileName_idempotent (title : string) :
  sanitizedFileName (sanitizedFileName title) = sanitizedFileName title.
Proof. apply clean_slug_fixed, sanitized_clean. Qed.

(** X10.  For a title of ASCII characters, the sanitised name is empty
    exactly when the title has no letter and no digit (an empty title or
    punctuation only): the data file is then named [.md]. *)
Theorem sanitizedFileName_empty (title : string) :
  all_chars is_ascii title = true ->
  Js.is_empty (sanitizedFileName title) = negb (some_char alphanumeric title)
  /\ (some_char alphanumeric title = false ->
      Workspace.outputFileName_data None title = ".md").
Proof.
  intros _.
  assert (E : Js.is_empty (sanitizedFileName title) = negb (some_char alphanumeric title)).
  { unfold sanitizedFileName.
    now rewrite replace_edge_dashes_empty, replace_runs_all_dashes, some_alnum_lower. }
  split; [exact E|].
  intros Hnone.
  unfold Workspace.outputFileName_data, title_data_to_file. simpl Js.or_str.
  rewrite Hnone in E. simpl in E.
  destruct (sanitizedFileName title); [reflexivity | discriminate].
Qed.

Lemma sanitizedFileName_empty_witness :
  Js.is_empty (sanitizedFileName "?! ...") = true
  /\ Workspace.outputFileName_data None "?! ..." = ".md".
Proof.
  destruct (sanitizedFileName_empty "?! ...") as [E F]; [reflexivity |].
  split; [rewrite E; reflexivity | apply F; reflexivity].
Defined.

End SlugFacts.

(* ------------------------------------------------------------------ *)
(** ** StructureTreeRenderer *)
(* ------------------------------------------------------------------ *)

Section StructureTreeFacts.

Import DescriptorEngine StructureTree.





Example structure_outline_small :
  generateStructureTree Samples.small_tree 1
  = Js.nl +:+ "  ├── first (TEXT)"
    +:+ Js.nl +:+ "  ├── second (GROUP)"
    +:+ Js.nl +:+ "    ├── inner (VECTOR)".
Proof. vm_compute. reflexivity. Qed.

End StructureTreeFacts.

(* ------------------------------------------------------------------ *)
(** ** DescriptorEngine: lists, borders, separators, indentation *)
(* ------------------------------------------------------------------ *)

Section DescriptorListsFacts.

Import ColorCodec DescriptorEngine Text.

Variable Number_toString : Q -> string.

(** The pieces of tag [t] in a block are those of the one part that
    writes [t]. *)
Ltac only_part n level t :=
  unfold nodeBlock; rewrite !pieces_of_app;
  try rewrite (pieces_of_outside t _ _ (identification_tags n level)) by reflexivity;
  try rewrite (pieces_of_outside t _ _ (geometry_tags Number_toString n level)) by reflexivity;
  try rewrite (pieces_of_outside t _ _ (colors_tags n level)) by reflexivity;
  try rewrite (pieces_of_outside t _ _ (typography_tags Number_toString n level)) by reflexivity;
  try rewrite (pieces_of_outside t _ _ (borders_tags Number_toString n level)) by reflexivity;
  try rewrite (pieces_of_outside t _ _ (effects_tags Number_toString n level)) by reflexivity;
  try rewrite (pieces_of_outside t _ _ (content_tags n level)) by reflexivity;
  cbn [pieces_of List.filter header fst tag_eqb List.app];
  rewrite ?List.app_nil_r.

Lemma nodeBlock_fill_pieces (n : DesignNode) (level : nat) :
  pieces_of TagFill (nodeBlock Number_toString n level) = pieces_of TagFill (colors n level)
  /\ pieces_of TagColorsTitle (nodeBlock Number_toString n level)
     = pieces_of TagColorsTitle (colors n level).
Proof.
  split; [only_part n level TagFill | only_part n level TagColorsTitle]; reflexivity.
Qed.

Lemma nodeBlock_border_pieces (n : DesignNode) (level : nat) :
  pieces_of TagBorder (nodeBlock Number_toString n level)
  = pieces_of TagBorder (borders Number_toString n level)
  /\ pieces_of TagBordersTitle (nodeBlock Number_toString n level)
     = pieces_of TagBordersTitle (borders Number_toString n level)
  /\ pieces_of TagCornerRadius (nodeBlock Number_toString n level)
     = pieces_of TagCornerRadius (borders Number_toString n level).
Proof.
  split; [|split];
    [only_part n level TagBorder | only_part n level TagBordersTitle
     | only_part n level TagCornerRadius]; reflexivity.
Qed.

Lemma nodeBlock_shadow_pieces (n : DesignNode) (level : nat) :
  pieces_of TagShadow (nodeBlock Number_toString n level)
  = pieces_of TagShadow (effects_lines Number_toString n level)
  /\ pieces_of TagEffectsTitle (nodeBlock Number_toString n level)
     = pieces_of TagEffectsTitle (effects_lines Number_toString n level).
Proof.
  split; [only_part n level TagShadow | only_part n level TagEffectsTitle]; reflexivity.
Qed.

(** A loop whose body writes one piece of tag [t] for the entries of one
    type, and nothing for the others, writes as many pieces as there are
    entries of that type; it writes no piece of a tag the body never uses. *)
Lemma forEach_count {A : Type} (t : tag) (type_of : A -> string) (kind : string)
    (body : A -> nat -> list piece) (xs : list A) (k : nat) :
  (forall x i, List.length (pieces_of t (body x i))
               = if String.eqb (type_of x) kind then 1%nat else 0%nat) ->
  List.length (pieces_of t (forEach body xs k)) = count_type type_of kind xs.
Proof.
  intros Hbody. revert k. unfold count_type.
  induction xs as [|x xs IH]; intros k; [reflexivity|].
  simpl. rewrite pieces_of_app, List.length_app, Hbody, IH.
  destruct (String.eqb (type_of x) kind); reflexivity.
Qed.

Lemma forEach_none {A : Type} (t : tag) (body : A -> nat -> list piece)
    (xs : list A) (k : nat) :
  (forall x i, pieces_of t (body x i) = []) ->
  pieces_of t (forEach body xs k) = [].
Proof.
  intros Hbody. revert k. induction xs as [|x xs IH]; intros k; [reflexivity|].
  simpl. now rewrite pieces_of_app, Hbody, IH.
Qed.

(** X12.  The Colors, Borders and Effects headings are written whenever
    the array is not empty, whatever its entries; under them there is one
    line per SOLID fill, one per SOLID stroke and one per DROP_SHADOW
    effect, and none for an entry of another type.  An array of entries of
    other types only gives a heading with nothing under it. *)
Theorem list_headings_and_lines (n : DesignNode) (level : nat) :
  emits TagColorsTitle (nodeBlock Number_toString n level)
  = negb (Nat.eqb (List.length (fills n)) 0)
  /\ List.length (pieces_of TagFill (nodeBlock Number_toString n level))
     = count_type paint_type "SOLID" (fills n)
  /\ emits TagBordersTitle (nodeBlock Number_toString n level)
     = negb (Nat.eqb (List.length (strokes n)) 0)
  /\ List.length (pieces_of TagBorder (nodeBlock Number_toString n level))
     = count_type paint_type "SOLID" (strokes n)
  /\ emits TagEffectsTitle (nodeBlock Number_toString n level)
     = negb (Nat.eqb (List.length (effects n)) 0)
  /\ List.length (pieces_of TagShadow (nodeBlock Number_toString n level))
     = count_type effect_type "DROP_SHADOW" (effects n).
Proof.
  destruct (nodeBlock_fill_pieces n level) as [F FT].
  destruct (nodeBlock_border_pieces n level) as (B & BT & _).
  destruct (nodeBlock_shadow_pieces n level) as [S ST].
  rewrite !emits_pieces_of, F, FT, B, BT, S, ST. clear F FT B BT S ST.
  unfold colors, borders, effects_lines.
  repeat split.
  - destruct (fills n) as [|f fs]; [reflexivity|].
    change (pieces_of TagColorsTitle (?p :: ?l)) with (p :: pieces_of TagColorsTitle l).
    reflexivity.
  - destruct (fills n) as [|f fs] eqn:E; [reflexivity|].
    change (pieces_of TagFill (?p :: ?l)) with (pieces_of TagFill l).
    apply forEach_count. intros x i. unfold fill_line.
    destruct (String.eqb (paint_type x) "SOLID"); reflexivity.
  - destruct (strokes n) as [|f fs]; [reflexivity|].
    change (pieces_of TagBordersTitle (?p :: ?l)) with (p :: pieces_of TagBordersTitle l).
    reflexivity.
  - destruct (strokes n) as [|f fs] eqn:E; [reflexivity|].
    change (pieces_of TagBorder (?p :: ?l)) with (pieces_of TagBorder l).
    rewrite pieces_of_app, List.length_app.
    rewrite (forEach_count TagBorder paint_type "SOLID").
    + destruct (cornerRadius n); simpl; lia.
    + intros x i. unfold border_line.
      destruct (String.eqb (paint_type x) "SOLID"); reflexivity.
  - destruct (effects n) as [|f fs]; [reflexivity|].
    change (pieces_of TagEffectsTitle (?p :: ?l)) with (p :: pieces_of TagEffectsTitle l).
    reflexivity.
  - destruct (effects n) as [|f fs] eqn:E; [reflexivity|].
    change (pieces_of TagShadow (?p :: ?l)) with (pieces_of TagShadow l).
    apply forEach_count. intros x i. unfold shadow_line.
    destruct (String.eqb (effect_type x) "DROP_SHADOW"); reflexivity.
Qed.

(** X13.  The corner-radius line is written under the Borders heading
    only: a node whose corner radius is defined but which has no stroke
    gets no corner-radius line. *)
Theorem corner_radius_needs_strokes (n : DesignNode) (level : nat) :
  emits TagCornerRadius (nodeBlock Number_toString n level)
  = negb (Nat.eqb (List.length (strokes n)) 0) && Js.truthy_obj (cornerRadius n).
Proof.
  destruct (nodeBlock_border_pieces n level) as (_ & _ & C).
  rewrite emits_pieces_of, C. clear C. unfold borders.
  destruct (strokes n) as [|f fs] eqn:E; [reflexivity|].
  change (pieces_of TagCornerRadius (?p :: ?l)) with (pieces_of TagCornerRadius l).
  rewrite pieces_of_app, forEach_none.
  - destruct (cornerRadius n); reflexivity.
  - intros x i. unfold border_line.
    destruct (String.eqb (paint_type x) "SOLID"); reflexivity.
Qed.

End DescriptorListsFacts.

Section DescriptorSeparatorsFacts.

Import ColorCodec DescriptorEngine Text.

Variable Number_toString : Q -> string.

Lemma nodeBlock_no_separator (n : DesignNode) (level : nat) :
  pieces_of TagDivider (nodeBlock Number_toString n level) = []
  /\ pieces_of TagChildrenTitle (nodeBlock Number_toString n level) = [].
Proof.
  split; unfold nodeBlock; rewrite !pieces_of_app;
    rewrite (pieces_of_outside _ _ _ (identification_tags n level)) by reflexivity;
    rewrite (pieces_of_outside _ _ _ (geometry_tags Number_toString n level)) by reflexivity;
    rewrite (pieces_of_outside _ _ _ (colors_tags n level)) by reflexivity;
    rewrite (pieces_of_outside _ _ _ (typography_tags Number_toString n level)) by reflexivity;
    rewrite (pieces_of_outside _ _ _ (borders_tags Number_toString n level)) by reflexivity;
    rewrite (pieces_of_outside _ _ _ (effects_tags Number_toString n level)) by reflexivity;
    rewrite (pieces_of_outside _ _ _ (content_tags n level)) by reflexivity;
    reflexivity.
Qed.

Lemma separators_app (a b : list piece) :
  separators (a ++ b) = (separators a + separators b)%nat.
Proof. unfold separators. rewrite !pieces_of_app, !List.length_app. lia. Qed.

Lemma separators_children (level : nat) (cs : list DesignNode) :
  Forall (fun c => forall l, S (separators (analyzeNode Number_toString c l)) = countNodes c) cs ->
  (separators
     (separated [divider level]
        (List.map (fun child => analyzeNode Number_toString child (level + 1)) cs))
   + match cs with [] => 0 | _ :: _ => 1 end)%nat
  = list_sum (List.map countNodes cs).
Proof.
  induction 1 as [|c cs Hc _ IH]; [reflexivity|].
  destruct cs as [|c' cs].
  - simpl. rewrite <- (Hc (level + 1)%nat). lia.
  - change (separated [divider level]
              (List.map (fun child => analyzeNode Number_toString child (level + 1))
                        (c :: c' :: cs)))
      with (analyzeNode Number_toString c (level + 1)
            ++ [divider level]
            ++ separated [divider level]
                 (List.map (fun child => analyzeNode Number_toString child (level + 1))
                           (c' :: cs))).
    rewrite !separators_app.
    change (separators [divider level]) with 1%nat.
    change (list_sum (List.map countNodes (c :: c' :: cs)))
      with (countNodes c + list_sum (List.map countNodes (c' :: cs)))%nat.
    rewrite <- IH, <- (Hc (level + 1)%nat). lia.
Qed.

Lemma analyzeNode_separators (n : DesignNode) :
  forall level, S (separators (analyzeNode Number_toString n level)) = countNodes n.
Proof.
  induction n as [n IH] using DesignNode_children_ind. intros level.
  rewrite analyzeNode_children, countNodes_eq, separators_app.
  destruct (nodeBlock_no_separator n level) as [D T].
  unfold separators at 1. rewrite D, T. simpl Nat.add. f_equal.
  rewrite <- (separators_children level (children n) IH).
  destruct (children n) as [|c cs]; [reflexivity|].
  change (childrenTitle n level :: ?l) with ([childrenTitle n level] ++ l).
  rewrite separators_app. change (separators [childrenTitle n level]) with 1%nat. lia.
Qed.

(** X14.  In the description of a tree of [N] nodes the dividers and the
    child-count titles are [N - 1] together, one per node other than the
    root: a node with [k > 0] children puts one title before them and
    [k - 1] dividers between them. *)
Theorem separators_count (n : DesignNode) (level : nat) :
  S (List.length (pieces_of TagDivider (analyzeNode Number_toString n level))
     + List.length (pieces_of TagChildrenTitle (analyzeNode Number_toString n level)))
  = countNodes n.
Proof. apply analyzeNode_separators. Qed.

(** *** Indentation *)

Lemma repeat_succ_r (s : string) (k : nat) : Js.repeat s (S k) = Js.repeat s k +:+ s.
Proof.
  induction k as [|k IH]; simpl.
  - now rewrite append_empty_r.
  - simpl in IH. rewrite IH at 1. now rewrite append_assoc.
Qed.

Lemma indented_app (level : nat) (rest : string) :
  indented level (Js.repeat "  " level +:+ rest) = true.
Proof. unfold indented. rewrite startsWith_app. apply orb_true_r. Qed.

Lemma indented_weaken (level : nat) (text : string) :
  indented (level + 1) text = true -> indented level text = true.
Proof.
  unfold indented. intros H. apply orb_true_iff in H. destruct H as [H|H].
  - now rewrite H.
  - apply startsWith_iff in H. destruct H as [rest ->].
    rewrite Nat.add_1_r, repeat_succ_r, append_assoc, startsWith_app.
    apply orb_true_r.
Qed.

Ltac indented_part :=
  cbv zeta;
  repeat first
    [ apply List.Forall_nil
    | apply List.Forall_cons; [cbn [snd]; first [reflexivity | apply indented_app]|]
    | apply List.Forall_app; split
    | apply forEach_Forall; intros
    | match goal with
      | |- Forall _ (if ?c then _ else _) => destruct c
      | |- Forall _ (match ?o with _ => _ end) => destruct o
      end ].

Lemma nodeBlock_indented (n : DesignNode) (level : nat) :
  Forall (fun p => indented level (snd p) = true) (nodeBlock Number_toString n level).
Proof.
  unfold nodeBlock, header, identification, geometry, colors, fill_line, typography,
    borders, border_line, effects_lines, shadow_line, content.
  indented_part.
Qed.

Lemma separated_Forall (P : piece -> Prop) (sep : piece) (xss : list (list piece)) :
  P sep -> Forall (Forall P) xss -> Forall P (separated [sep] xss).
Proof.
  intros Hsep Hall. induction Hall as [|xs xss Hxs _ IH]; [constructor|].
  destruct xss as [|ys xss]; [exact Hxs|].
  change (separated [sep] (xs :: ys :: xss)) with (xs ++ [sep] ++ separated [sep] (ys :: xss)).
  apply List.Forall_app. split; [exact Hxs|].
  apply List.Forall_app. split; [now constructor | exact IH].
Qed.

Lemma analyzeNode_indented (n : DesignNode) :
  forall level,
    Forall (fun p => indented level (snd p) = true) (analyzeNode Number_toString n level).
Proof.
  induction n as [n IH] using DesignNode_children_ind. intros level.
  rewrite analyzeNode_children. apply List.Forall_app. split; [apply nodeBlock_indented|].
  destruct (children n) as [|c cs]; [constructor|].
  constructor; [apply indented_app|].
  apply separated_Forall; [apply indented_app|].
  apply List.Forall_map.
  eapply List.Forall_impl; [|exact IH].
  intros child Hchild. cbv beta.
  eapply List.Forall_impl; [|apply (Hchild (level + 1)%nat)].
  intros p. apply indented_weaken.
Qed.

(** X15.  Every piece of text written for a node at depth [d], the
    pieces of its whole subtree included, is the blank separator or starts
    with [2 d] spaces: the description of a subtree never reaches left of
    the indentation of its root. *)
Theorem description_indented (n : DesignNode) (level : nat) :
  Forall (fun p => indented level (snd p) = true) (analyzeNode Number_toString n level).
Proof. apply analyzeNode_indented. Qed.

End DescriptorSeparatorsFacts.

(* ------------------------------------------------------------------ *)
(** ** PurposeClassifier: the two copies, and the case of the name *)
(* ------------------------------------------------------------------ *)

Section PurposeCopiesFacts.

Import PurposeClassifier.

Lemma app_cancel_l (a b c : string) : a +:+ b = a +:+ c -> b = c.
Proof. induction a as [|x a IH]; simpl; [auto|]. intros H. injection H as H. auto. Qed.

Lemma or_str_some_empty (s : string) : Js.or_str (Some s) EmptyString = s.
Proof. destruct s; reflexivity. Qed.

(** X16.  The two copies of [inferElementPurpose] give the same label
    for a node exactly when its type is TEXT: for every other node the
    label of the description and the label of the technical specification
    differ. *)
Theorem purpose_copies_agree_on_text_only (node_name : option string) (node_type : string) :
  inferElementPurpose node_name node_type = inferElementPurpose_spec node_name node_type
  <-> node_type = "TEXT".
Proof.
  unfold inferElementPurpose, inferElementPurpose_spec. cbv zeta.
  destruct (String.eqb node_type "TEXT") eqn:ET.
  - apply String.eqb_eq in ET. split; [intros _; exact ET | reflexivity].
  - split; [|intros ->; discriminate ET]. intros H. exfalso.
    repeat match type of H with
           | context [if ?c then _ else _] => destruct c eqn:?
           end; try discriminate H.
    + match goal with E : String.eqb node_type "FRAME" = true |- _ =>
        apply String.eqb_eq in E; subst node_type end.
      discriminate H.
    + apply app_cancel_l in H. discriminate H.
Qed.

(** X17.  The keywords are matched without regard to the case of the
    name: two names that are equal up to the case of their letters get the
    same label, in both copies, and an absent name counts as the empty
    name. *)
Theorem purpose_ignores_case (name1 name2 node_type : string) :
  Js.toLowerCase name1 = Js.toLowerCase name2 ->
  inferElementPurpose (Some name1) node_type = inferElementPurpose (Some name2) node_type
  /\ inferElementPurpose_spec (Some name1) node_type
     = inferElementPurpose_spec (Some name2) node_type
  /\ inferElementPurpose None node_type = inferElementPurpose (Some EmptyString) node_type.
Proof.
  intros H. unfold inferElementPurpose, inferElementPurpose_spec. cbv zeta.
  rewrite !or_str_some_empty, H. repeat split.
Qed.

Lemma purpose_ignores_case_witness :
  inferElementPurpose (Some "LOGIN Button") "RECTANGLE"
  = inferElementPurpose (Some "login button") "RECTANGLE"
  /\ inferElementPurpose (Some "login button") "RECTANGLE" = "Button".
Proof.
  split.
  - exact (proj1 (purpose_ignores_case "LOGIN Button" "login button" "RECTANGLE" eq_refl)).
  - vm_compute. reflexivity.
Defined.

End PurposeCopiesFacts.

(* ------------------------------------------------------------------ *)
(** ** ColorCodec: distinct colours *)
(* ------------------------------------------------------------------ *)

Section ColorAccuracyFacts.

Import ColorCodec.

Lemma two_hex_digits_table :
  forallb
    (fun i => forallb
                (fun j => implb (String.eqb (two_hex_digits (Z.of_nat i))
                                            (two_hex_digits (Z.of_nat j)))
                                (Nat.eqb i j))
                (seq 0 256))
    (seq 0 256) = true.
Proof. vm_compute. reflexivity. Qed.

Lemma two_hex_digits_inj (m n : Z) :
  (0 <= m <= 255)%Z -> (0 <= n <= 255)%Z ->
  two_hex_digits m = two_hex_digits n -> m = n.
Proof.
  intros Hm Hn E.
  pose proof two_hex_digits_table as T.
  rewrite forallb_forall in T.
  assert (Hi : In (Z.to_nat m) (seq 0 256)) by (apply in_seq; lia).
  assert (Hj : In (Z.to_nat n) (seq 0 256)) by (apply in_seq; lia).
  pose proof (T _ Hi) as T1. rewrite forallb_forall in T1.
  pose proof (T1 _ Hj) as T2. rewrite !Z2Nat.id in T2 by lia.
  rewrite E, String.eqb_refl in T2. simpl in T2.
  apply Nat.eqb_eq in T2. lia.
Qed.

(** X18.  On colours whose channels lie in [0,1], two colours get the
    same hexadecimal string exactly when the double products of their three
    channels with 255 round to the same values: distinct 8-bit colours
    never share a string. *)
Theorem rgbToHex_injective (c1 c2 : RGB) :
  in_unit (r c1) = true -> in_unit (g c1) = true -> in_unit (b c1) = true ->
  in_unit (r c2) = true -> in_unit (g c2) = true -> in_unit (b c2) = true ->
  rgbToHex (Some c1) = rgbToHex (Some c2)
  <-> (Js.Math_round (r c1 * 255)%float = Js.Math_round (r c2 * 255)%float
       /\ Js.Math_round (g c1 * 255)%float = Js.Math_round (g c2 * 255)%float
       /\ Js.Math_round (b c1 * 255)%float = Js.Math_round (b c2 * 255)%float).
Proof.
  intros Hr1 Hg1 Hb1 Hr2 Hg2 Hb2.
  destruct (toHex_channel (r c1) Hr1) as (r1 & Er1 & Nr1 & Tr1).
  destruct (toHex_channel (g c1) Hg1) as (g1 & Eg1 & Ng1 & Tg1).
  destruct (toHex_channel (b c1) Hb1) as (b1 & Eb1 & Nb1 & Tb1).
  destruct (toHex_channel (r c2) Hr2) as (r2 & Er2 & Nr2 & Tr2).
  destruct (toHex_channel (g c2) Hg2) as (g2 & Eg2 & Ng2 & Tg2).
  destruct (toHex_channel (b c2) Hb2) as (b2 & Eb2 & Nb2 & Tb2).
  unfold rgbToHex. rewrite Tr1, Tg1, Tb1, Tr2, Tg2, Tb2, Er1, Eg1, Eb1, Er2, Eg2, Eb2.
  split.
  - intros H. unfold two_hex_digits in H. simpl in H.
    injection H as R1 R2 G1 G2 B1 B2.
    repeat split; f_equal; apply two_hex_digits_inj; try assumption;
      unfold two_hex_digits; congruence.
  - intros (R & G & B). injection R as ->. injection G as ->. injection B as ->.
    reflexivity.
Qed.

Lemma rgbToHex_injective_witness :
  rgbToHex (Some (mkRGB 1 0.5 0)) = rgbToHex (Some (mkRGB 1 0x1.01p-1 0)).
Proof.
  apply (rgbToHex_injective (mkRGB 1 0.5 0) (mkRGB 1 0x1.01p-1 0));
    try reflexivity.
  repeat split.
Defined.

End ColorAccuracyFacts.

(* ------------------------------------------------------------------ *)
(** ** ExportOrchestrator: the two pathways *)
(* ------------------------------------------------------------------ *)

Section ExportPathwaysFacts.

Import ExportOrchestrator.

Lemma filter_split {A : Type} (p : A -> bool) (l : list A) :
  Permutation l (List.filter p l ++ List.filter (fun x => negb (p x)) l).
Proof.
  induction l as [|x l IH]; simpl; [constructor|].
  destruct (p x); simpl.
  - now constructor.
  - now apply Permutation_cons_app.
Qed.

Lemma renderRequests_length (nodes : list ExportRequest) :
  List.length (renderRequests nodes)
  = List.length (List.filter (fun req => negb (Js.truthy_str (imageRef req))) nodes).
Proof. unfold renderRequests. apply List.length_map. Qed.

(** X20.  Every request is handed to exactly one of the two operations
    of the fetch service: the requests with an [imageRef] and those without
    are together the requests given, none lost and none doubled, each group
    in the order given; the render requests keep the file names. *)
Theorem requests_partitioned (nodes : list ExportRequest) :
  (List.length (imageFills nodes) + List.length (renderRequests nodes))%nat
  = List.length nodes
  /\ Permutation nodes
       (imageFills nodes
        ++ List.filter (fun req => negb (Js.truthy_str (imageRef req))) nodes)
  /\ List.map render_fileName (renderRequests nodes)
     = List.map fileName
         (List.filter (fun req => negb (Js.truthy_str (imageRef req))) nodes)
  /\ (forall req, In req nodes ->
        if Js.truthy_str (imageRef req)
        then In req (imageFills nodes)
        else In (mkRender (forwardedNodeId (nodeId req)) (fileName req)
                          (inferFileType (fileName req)))
                (renderRequests nodes)).
Proof.
  pose proof (filter_split (fun req => Js.truthy_str (imageRef req)) nodes) as P.
  split; [|split; [|split]].
  - rewrite renderRequests_length. unfold imageFills.
    rewrite <- List.length_app. symmetry. now apply Permutation_length.
  - exact P.
  - unfold renderRequests. rewrite List.map_map. reflexivity.
  - intros req Hin. destruct (Js.truthy_str (imageRef req)) eqn:E.
    + unfold imageFills. apply List.filter_In. auto.
    + unfold renderRequests.
      apply (List.in_map
               (fun req => mkRender (forwardedNodeId (nodeId req)) (fileName req)
                             (inferFileType (fileName req)))).
      apply List.filter_In. rewrite E. auto.
Qed.

(** X21.  A render request is an SVG request exactly when its file
    name is some stem followed by [.svg], in lower case; every other name,
    [.SVG] included, makes it a PNG request. *)
Theorem render_fileType_by_suffix (nodes : list ExportRequest) :
  Forall
    (fun fwd =>
       (fileType fwd = svg <-> exists stem, render_fileName fwd = stem +:+ ".svg")
       /\ (fileType fwd = png <-> Js.endsWith (render_fileName fwd) ".svg" = false))
    (renderRequests nodes).
Proof.
  unfold renderRequests. apply List.Forall_map. apply List.Forall_forall.
  intros req _. simpl. unfold inferFileType. rewrite <- endsWith_iff.
  destruct (Js.endsWith (fileName req) ".svg"); repeat split; intros; congruence.
Qed.

Example render_fileType_upper :
  List.map fileType (renderRequests [ mkRequest "1:2" None "ICON.SVG";
                                      mkRequest "1:3" None "icon.svg";
                                      mkRequest "1:4" None ".svg" ])
  = [ png; svg; svg ].
Proof. reflexivity. Qed.

(** X22.  When each operation of the fetch service reports one outcome
    per item it is handed, the answer of the handler counts as many images
    as there were requests, and it is the success text whatever the
    outcomes are. *)
Theorem reported_count_is_request_count
    (getImageFills : list ExportRequest -> list JsValue)
    (getImages : list RenderRequest -> list JsValue)
    (nodes : list ExportRequest) :
  (forall items, List.length (getImageFills items) = List.length items) ->
  (forall items, List.length (getImages items) = List.length items) ->
  download_figma_images getImageFills getImages nodes
  = "Success, " +:+ Js.int_toString (Z.of_nat (List.length nodes))
    +:+ " images downloaded: "
    +:+ Js.join ", "
          (List.map toJoinString
             (getImageFills (imageFills nodes) ++ getImages (renderRequests nodes))).
Proof.
  intros Hfills Hrenders.
  unfold download_figma_images, answer, downloads. cbv zeta.
  rewrite saveSuccess_always, List.length_app, Hfills, Hrenders, renderRequests_length.
  unfold imageFills. rewrite <- List.length_app.
  now rewrite <- (Permutation_length
                    (filter_split (fun req => Js.truthy_str (imageRef req)) nodes)).
Qed.

Lemma reported_count_is_request_count_witness :
  download_figma_images
    (List.map (fun _ => JsBool true)) (List.map (fun _ => JsBool false))
    [ mkRequest "1:1" (Some "ref") "a.png"; mkRequest "1-2" None "b.svg" ]
  = "Success, 2 images downloaded: true, false".
Proof.
  rewrite (reported_count_is_request_count
             (List.map (fun _ => JsBool true)) (List.map (fun _ => JsBool false))
             [ mkRequest "1:1" (Some "ref") "a.png"; mkRequest "1-2" None "b.svg" ]
             (fun items => List.length_map _ items)
             (fun items => List.length_map _ items)).
  reflexivity.
Defined.

End ExportPathwaysFacts.

(* ------------------------------------------------------------------ *)
(** ** The header check of the HTTP binding *)
(* ------------------------------------------------------------------ *)

Section HttpBindingFacts.

Import HttpBinding.

(** X23.  The header check stops a request only if it is a POST to
    [/mcp], and then exactly when the [content-type] header is absent or
    does not contain [application/json]; a content type with parameters
    around it passes.  A request it stops always gets status 400 with the
    JSON-RPC code -32600. *)
Theorem validateMcpHeaders_spec (method path : string) (contentType : option string) :
  (validateMcpHeaders "POST" "/mcp" contentType = Next
   <-> exists pre post, contentType = Some (pre +:+ "application/json" +:+ post))
  /\ (String.eqb method "POST" && String.eqb path "/mcp" = false ->
      validateMcpHeaders method path contentType = Next)
  /\ (validateMcpHeaders method path contentType = Next
      \/ validateMcpHeaders method path contentType
         = Reject 400 (-32600) "Invalid request - Content-Type must be application/json").
Proof.
  split; [|split].
  - destruct contentType as [s|].
    + assert (E : validateMcpHeaders "POST" "/mcp" (Some s)
                  = if Js.includes s "application/json" then Next
                    else Reject 400 (-32600)
                           "Invalid request - Content-Type must be application/json").
      { unfold validateMcpHeaders. rewrite or_str_some_empty.
        change (String.eqb "POST" "POST" && String.eqb "/mcp" "/mcp") with true. cbv iota.
        destruct s as [|c s]; [reflexivity|].
        set (found := Js.includes (String c s) "application/json").
        change (negb (Js.truthy_str (Some (String c s)))) with false.
        rewrite orb_false_l. destruct found; reflexivity. }
      rewrite E. clear E.
      destruct (Js.includes s "application/json") eqn:Ei.
      * split; [intros _ | reflexivity].
        apply includes_iff in Ei. destruct Ei as (pre & post & ->). eauto.
      * split; [discriminate|]. intros (pre & post & H).
        assert (Hs : s = pre +:+ "application/json" +:+ post) by congruence.
        rewrite Hs, includes_app in Ei. discriminate.
    + split; [discriminate | intros (pre & post & [=])].
  - intros H. unfold validateMcpHeaders. now rewrite H.
  - unfold validateMcpHeaders.
    destruct (String.eqb method "POST" && String.eqb path "/mcp"); [|now left].
    destruct (negb (Js.truthy_str contentType)
              || negb (Js.includes (Js.or_str contentType "") "application/json"));
      [now right | now left].
Qed.

Example validateMcpHeaders_examples :
  validateMcpHeaders "POST" "/mcp" (Some "application/json; charset=utf-8") = Next
  /\ validateMcpHeaders "POST" "/mcp" (Some "Application/JSON")
     = Reject 400 (-32600) "Invalid request - Content-Type must be application/json"
  /\ validateMcpHeaders "POST" "/mcp/" None = Next
  /\ validateMcpHeaders "GET" "/mcp" None = Next.
Proof. repeat split. Qed.

End HttpBindingFacts.

(* ------------------------------------------------------------------ *)
(** ** The forwarded node id *)
(* ------------------------------------------------------------------ *)

Section ForwardedNodeIdFacts.

Import ExportOrchestrator.

(** X24.  The node id forwarded for a render request has the length of
    the one requested, and it is the requested one exactly when that holds
    no ["-"]: an id in the form of a URL ([12-34]) is always changed, an id
    in the form of the API ([12:34]) never. *)
Theorem forwardedNodeId_changes_dashed_ids (id : string) :
  String.length (forwardedNodeId id) = String.length id
  /\ (forwardedNodeId id = id <-> Js.includes id "-" = false).
Proof.
  destruct (Js.includes id "-") eqn:E.
  - destruct (forwardedNodeId_dash id E) as (pre & post & Hid & _ & Hfwd).
    rewrite Hfwd, Hid. split.
    + rewrite !string_length_app. reflexivity.
    + split; [|discriminate]. intros H. apply app_cancel_l in H. discriminate H.
  - rewrite (forwardedNodeId_no_dash id E). split; [reflexivity | split; reflexivity].
Qed.

End ForwardedNodeIdFacts.

(* ------------------------------------------------------------------ *)
(** ** The process: what the document reads and the descriptor does not *)
(* ------------------------------------------------------------------ *)

Section RuntimeFacts.

Import DescriptorEngine.

Variable Number_toString : Q -> string.

Lemma generateDetailedVisualDescription_run (node : DesignNode) (file : FileContext)
    (w : Runtime.World) :
  Runtime.generateDetailedVisualDescription Number_toString node file w
  = (generateDetailedVisualDescription Number_toString node file, w).
Proof.
  unfold Runtime.generateDetailedVisualDescription, Runtime.bind.
  now rewrite analyzeNode_run.
Qed.

(** The document built around the description carries the reading of the
    clock: two runs at different times give different documents, on the
    same node and the same file context. *)
Lemma visualDocument_reads_the_clock (fileKey nodeId : string) (node : DesignNode)
    (file : FileContext) (technicalData : string) (w1 w2 : Runtime.World) :
  Runtime.now w1 <> Runtime.now w2 ->
  snd (fst (Runtime.visualDocument Number_toString fileKey nodeId node file technicalData w1))
  <> snd (fst (Runtime.visualDocument Number_toString fileKey nodeId node file
                 technicalData w2)).
Proof.
  intros Hnow E. apply Hnow.
  unfold Runtime.visualDocument, Runtime.bind, Runtime.Logger_log,
    Runtime.getClientWorkingDirectory, Runtime.Date_toISOString, Runtime.ret in E.
  rewrite !generateDetailedVisualDescription_run in E.
  cbn [fst snd Runtime.now] in E.
  rewrite <- !append_assoc in E.
  repeat (apply app_cancel_r in E).
  rewrite !append_assoc in E.
  repeat (apply app_cancel_l in E).
  exact E.
Qed.

(** It also writes to the console: the world after the run holds one more
    line. *)
Lemma visualDocument_logs (fileKey nodeId : string) (node : DesignNode)
    (file : FileContext) (technicalData : string) (w : Runtime.World) :
  Runtime.logger
    (snd (Runtime.visualDocument Number_toString fileKey nodeId node file technicalData w))
  = Logger.log [ "Successfully fetched node: " +:+ Runtime.template (name node) ]
               (Runtime.logger w).
Proof.
  unfold Runtime.visualDocument, Runtime.bind, Runtime.Logger_log,
    Runtime.getClientWorkingDirectory, Runtime.Date_toISOString, Runtime.ret.
  rewrite generateDetailedVisualDescription_run. reflexivity.
Qed.

End RuntimeFacts.
